(** * MultiDirectionTooltip: positioning and lifecycle engine

    A shallow embedding of the [MultiDirectionTooltip] React component
    (index.tsx) and of its configuration types (types.ts).

    Conventions of the embedding.
    - JavaScript numbers that hold pixel coordinates and delays are exact
      rationals ([Q]); the comparisons [<] and [>] are [Qltb] and [Qgtb].
      The code's sums, differences and halves are exact in IEEE doubles on
      integer pixel values, which every concrete input below uses; on other
      values a double may round where [Q] does not.
    - An optional property ([offset?: number]) is an [option]; a truthiness
      test on it is written out ([truthy], [or_zero]).
    - The configuration object is an association list in property order,
      because [Object.entries] iterates it in that order.
    - React state ([isOpen], [activePopup]), refs ([timeoutRef]) and the
      browser's timer table are fields of one [State] record threaded
      through the handlers; a lifecycle callback of the host is a label
      appended to the [calls] log when the component invokes it.
    - [calculatePosition] is memoised on [defaultOffset] and [disableFlip]
      only, so the [activePopup] it reads is the binding of the render that
      created the closure ([memoActivePopup], [null] after the first render),
      not the current state.
    - Timing is abstracted: a pending timer may fire at any later moment
      (event [EvFire]); a cleared timer is removed from the table.
    - The effect cleanup that clears the pending timer is the event
      [EvEffectCleanup]; the resize/scroll handler, with its refs and its
      animation frames, is embedded over [ResizeState].  [runFrame] is the
      frame callback alone; [frameAndRender] adds the re-render it causes:
      the cleanup, the focus of a mounted click overlay and the effect's
      own call of [handleResize].
    - theme-provider.tsx is embedded in the module [ThemeProvider]:
      [localStorage] is a map that may throw on access, the root element's
      [classList] a list of tokens. *)

From Stdlib Require Import QArith List Bool Arith Lia String.
Import ListNotations.

Local Open Scope Q_scope.

(** ** Numbers *)

Definition Qltb (x y : Q) : bool :=
  match x ?= y with Lt => true | _ => false end.

Definition Qgtb (x y : Q) : bool := Qltb y x.

(** ** types.ts *)

Inductive PopupPlacement := TOP | LEFT | RIGHT | BOTTOM.

Inductive PopupType := HOVER | CLICK.

Definition PopupPlacement_eqb (a b : PopupPlacement) : bool :=
  match a, b with
  | TOP, TOP | LEFT, LEFT | RIGHT, RIGHT | BOTTOM, BOTTOM => true
  | _, _ => false
  end.

Definition PopupType_eqb (a b : PopupType) : bool :=
  match a, b with
  | HOVER, HOVER | CLICK, CLICK => true
  | _, _ => false
  end.

(** A host callback [() => void]: the component can only invoke it, so it is
    a label, recorded in the log when invoked. *)
Definition Callback := string.

(** [BasePopupMetadata] and [HoverPopupMetadata]: one record for both, the
    hover-only properties being absent ([None]) on a click entry. *)
Record PopupMetadata := {
  offset : option Q;
  onMouseEnter : option Callback;
  onMouseLeave : option Callback;
  onOpenCallback : option Callback;
  onCloseCallback : option Callback;
  applyDefaultClassNames : option bool;
  disableFlip : option bool;
  element : string;
  openDelay : option Q;
  closeDelay : option Q;
  enterable : option bool
}.

(** The value of one placement key: [{ click?: ..., hover?: ... }]. *)
Record PopupTypes := {
  click : option PopupMetadata;
  hover : option PopupMetadata
}.

(** [MultiDirectionPopupConfig], in property order. *)
Definition MultiDirectionPopupConfig := list (PopupPlacement * PopupTypes).

Record TriggerCallbacks := {
  tc_onClick : option Callback;
  tc_onMouseEnter : option Callback;
  tc_onMouseLeave : option Callback
}.

(** [MultiDirectionTooltipProps], with the defaults of the destructuring
    ([disableFlip = false], [defaultOffset = 8]) applied by [mkProps]. *)
Record Props := {
  config : MultiDirectionPopupConfig;
  globalDisableFlip : bool;
  defaultOffset : Q;
  triggerCallbacks : option TriggerCallbacks
}.

Definition mkProps (c : MultiDirectionPopupConfig) (flip : option bool)
    (off : option Q) (tc : option TriggerCallbacks) : Props :=
  {| config := c;
     globalDisableFlip := match flip with Some b => b | None => false end;
     defaultOffset := match off with Some o => o | None => 8 end;
     triggerCallbacks := tc |}.

(** ** JavaScript idioms *)

(** Truthiness of an optional boolean property. *)
Definition truthy (o : option bool) : bool :=
  match o with Some b => b | None => false end.

(** [x || 0] on an optional number. *)
Definition or_zero (o : option Q) : Q :=
  match o with
  | Some d => if Qeq_bool d 0 then 0 else d
  | None => 0
  end.

(** [config[placement]]. *)
Fixpoint lookupPlacement (c : MultiDirectionPopupConfig) (placement : PopupPlacement)
    : option PopupTypes :=
  match c with
  | [] => None
  | (p, types) :: rest =>
      if PopupPlacement_eqb p placement then Some types
      else lookupPlacement rest placement
  end.

(** [types[type]]. *)
Definition typeEntry (types : PopupTypes) (type : PopupType) : option PopupMetadata :=
  match type with
  | CLICK => click types
  | HOVER => hover types
  end.

(** [config[placement]?.[type]]. *)
Definition lookupPopup (c : MultiDirectionPopupConfig) (placement : PopupPlacement)
    (type : PopupType) : option PopupMetadata :=
  match lookupPlacement c placement with
  | Some types => typeEntry types type
  | None => None
  end.

(** ** Geometry *)

(** A [DOMRect] as [getBoundingClientRect] returns it. *)
Record DOMRect := {
  r_top : Q;
  r_left : Q;
  r_bottom : Q;
  r_right : Q;
  r_width : Q;
  r_height : Q
}.

(** The rectangle of a box at [(x, y)] of size [w] by [h]. *)
Definition rectOf (x y w h : Q) : DOMRect :=
  {| r_top := y; r_left := x; r_bottom := y + h; r_right := x + w;
     r_width := w; r_height := h |}.

Record Size := { width : Q; height : Q }.

Record Position := { top : Q; left : Q }.

(** What the handlers read from the document and the window. *)
Record Dom := {
  triggerRect : option DOMRect;   (* triggerRef.current, if mounted *)
  popupRect : option DOMRect;     (* popupRef.current, if mounted *)
  innerWidth : Q;
  innerHeight : Q
}.

Record ActivePopup := {
  placement : PopupPlacement;
  type : PopupType;
  position : option Position
}.

(** The [positions] table of [calculatePosition]. *)
Definition positions (triggerRect : DOMRect) (popupRect : Size) (offset : Q)
    (placement : PopupPlacement) : Position :=
  match placement with
  | TOP =>
      {| top := r_top triggerRect - height popupRect - offset;
         left := r_left triggerRect + (r_width triggerRect - width popupRect) / 2 |}
  | BOTTOM =>
      {| top := r_bottom triggerRect + offset;
         left := r_left triggerRect + (r_width triggerRect - width popupRect) / 2 |}
  | LEFT =>
      {| top := r_top triggerRect + (r_height triggerRect - height popupRect) / 2;
         left := r_left triggerRect - width popupRect - offset |}
  | RIGHT =>
      {| top := r_top triggerRect + (r_height triggerRect - height popupRect) / 2;
         left := r_right triggerRect + offset |}
  end.

(** The measured size of the overlay, or the default 200 by 40. *)
Definition popupSize (d : Dom) : Size :=
  match popupRect d with
  | Some r => {| width := r_width r; height := r_height r |}
  | None => {| width := 200; height := 40 |}
  end.

(** The object [calculatePosition] returns; both properties are absent when
    the trigger is not mounted. *)
Record Calculated := {
  c_position : option Position;
  c_placement : option PopupPlacement
}.

(** [activePopup?.type ?? PopupType.HOVER]. *)
Definition seenType (activePopup : option ActivePopup) : PopupType :=
  match activePopup with
  | Some ap => type ap
  | None => HOVER
  end.

(** The guard [tooltipConfig?.disableFlip || disableFlip]. *)
Definition flipDisabled (props : Props) (activePopup : option ActivePopup)
    (placement : PopupPlacement) : bool :=
  let tooltipConfig := lookupPopup (config props) placement (seenType activePopup) in
  match tooltipConfig with
  | Some cfg => truthy (disableFlip cfg)
  | None => false
  end || globalDisableFlip props.

(** The boundary checks, on the base position [viewportPos]. *)
Definition finalPlacementOf (d : Dom) (popupRect : Size) (viewportPos : Position)
    (placement : PopupPlacement) : PopupPlacement :=
  let viewportLeft := 0 in
  let viewportTop := 0 in
  let viewportRight := innerWidth d in
  let viewportBottom := innerHeight d in
  if Qltb (left viewportPos) viewportLeft then RIGHT
  else if Qgtb (left viewportPos + width popupRect) viewportRight then LEFT
  else if Qltb (top viewportPos) viewportTop then BOTTOM
  else if Qgtb (top viewportPos + height popupRect) viewportBottom then TOP
  else placement.

(** [calculatePosition(placement)].  [activePopup] is the binding of the
    state variable that the memoised closure sees. *)
Definition calculatePosition (props : Props) (activePopup : option ActivePopup)
    (d : Dom) (placement : PopupPlacement) : Calculated :=
  match triggerRect d with
  | None => {| c_position := None; c_placement := None |}
  | Some triggerRect =>
      let popupRect := popupSize d in
      let offset := defaultOffset props in
      let positions := positions triggerRect popupRect offset in
      if flipDisabled props activePopup placement then
        {| c_position := Some (positions placement); c_placement := Some placement |}
      else
        let viewportPos := positions placement in
        let finalPlacement := finalPlacementOf d popupRect viewportPos placement in
        {| c_position := Some (positions finalPlacement);
           c_placement := Some finalPlacement |}
  end.

(** ** Component state *)

(** The two callbacks the component hands to [window.setTimeout], with the
    variables each closure captures. *)
Inductive TimerCallback :=
| OpenTimer (finalPlacement : PopupPlacement) (type : PopupType)
    (position : option Position) (popupConfig : PopupMetadata)
| CloseTimer (popupConfig : PopupMetadata).

Record Timer := {
  timer_id : nat;
  timer_delay : Q;
  timer_callback : TimerCallback
}.

(** [document.activeElement], as far as the component distinguishes it. *)
Inductive FocusTarget :=
| FocusTrigger
| FocusPopup
| FocusInPopup (i : nat)   (* the i-th focusable descendant of the overlay *)
| FocusElsewhere.

Definition FocusTarget_eqb (a b : FocusTarget) : bool :=
  match a, b with
  | FocusTrigger, FocusTrigger | FocusPopup, FocusPopup
  | FocusElsewhere, FocusElsewhere => true
  | FocusInPopup i, FocusInPopup j => Nat.eqb i j
  | _, _ => false
  end.

Record State := {
  isOpen : bool;
  activePopup : option ActivePopup;
  timeoutRef : option nat;               (* timeoutRef.current *)
  timers : list Timer;                   (* the window's pending timers *)
  nextTimerId : nat;
  activeElement : FocusTarget;
  focusableCount : nat;                  (* focusable descendants of the overlay *)
  calls : list Callback;                 (* host callbacks invoked so far *)
  dom : Dom;
  memoActivePopup : option ActivePopup   (* [activePopup] as bound inside the
                                            memoised [calculatePosition] *)
}.

(** The state after the first render. *)
Definition mount (d : Dom) : State :=
  {| isOpen := false; activePopup := None; timeoutRef := None; timers := [];
     nextTimerId := 1; activeElement := FocusElsewhere; focusableCount := 0;
     calls := []; dom := d; memoActivePopup := None |}.

Definition with_visibility (o : bool) (ap : option ActivePopup) (s : State) : State :=
  {| isOpen := o; activePopup := ap; timeoutRef := timeoutRef s;
     timers := timers s; nextTimerId := nextTimerId s;
     activeElement := activeElement s; focusableCount := focusableCount s;
     calls := calls s; dom := dom s; memoActivePopup := memoActivePopup s |}.

Definition with_timers (ref : option nat) (ts : list Timer) (next : nat) (s : State)
    : State :=
  {| isOpen := isOpen s; activePopup := activePopup s; timeoutRef := ref;
     timers := ts; nextTimerId := next;
     activeElement := activeElement s; focusableCount := focusableCount s;
     calls := calls s; dom := dom s; memoActivePopup := memoActivePopup s |}.

Definition with_focus (f : FocusTarget) (s : State) : State :=
  {| isOpen := isOpen s; activePopup := activePopup s; timeoutRef := timeoutRef s;
     timers := timers s; nextTimerId := nextTimerId s;
     activeElement := f; focusableCount := focusableCount s;
     calls := calls s; dom := dom s; memoActivePopup := memoActivePopup s |}.

Definition with_calls (cs : list Callback) (s : State) : State :=
  {| isOpen := isOpen s; activePopup := activePopup s; timeoutRef := timeoutRef s;
     timers := timers s; nextTimerId := nextTimerId s;
     activeElement := activeElement s; focusableCount := focusableCount s;
     calls := cs; dom := dom s; memoActivePopup := memoActivePopup s |}.

Definition with_dom (d : Dom) (n : nat) (s : State) : State :=
  {| isOpen := isOpen s; activePopup := activePopup s; timeoutRef := timeoutRef s;
     timers := timers s; nextTimerId := nextTimerId s;
     activeElement := activeElement s; focusableCount := n;
     calls := calls s; dom := d; memoActivePopup := memoActivePopup s |}.

(** [cb?.()]. *)
Definition invoke (cb : option Callback) (s : State) : State :=
  match cb with
  | Some c => with_calls (calls s ++ [c]) s
  | None => s
  end.

(** [window.clearTimeout(id)]. *)
Definition clearTimeout (id : nat) (s : State) : State :=
  with_timers (timeoutRef s)
    (filter (fun t => negb (Nat.eqb (timer_id t) id)) (timers s))
    (nextTimerId s) s.

(** [if (timeoutRef.current !== null) window.clearTimeout(timeoutRef.current)]. *)
Definition clearPending (s : State) : State :=
  match timeoutRef s with
  | Some id => clearTimeout id s
  | None => s
  end.

(** [timeoutRef.current = window.setTimeout(cb, delay)]. *)
Definition armTimeout (cb : TimerCallback) (delay : Q) (s : State) : State :=
  let id := nextTimerId s in
  with_timers (Some id)
    (timers s ++ [{| timer_id := id; timer_delay := delay; timer_callback := cb |}])
    (S id) s.

(** ** Handlers *)

Section Handlers.

Variable props : Props.

(** What the pending open of [handleOpen] will store in [activePopup]. *)
Definition openTimerOf (s : State) (placement : PopupPlacement) (type : PopupType)
    (popupConfig : PopupMetadata) : TimerCallback :=
  let preCalculatedPosition :=
    calculatePosition props (memoActivePopup s) (dom s) placement in
  let finalPlacement :=
    match c_placement preCalculatedPosition with
    | Some p => p
    | None => placement
    end in
  OpenTimer finalPlacement type (c_position preCalculatedPosition) popupConfig.

Definition openDelayOf (type : PopupType) (popupConfig : PopupMetadata) : Q :=
  match type with
  | HOVER => or_zero (openDelay popupConfig)
  | CLICK => 0
  end.

Definition handleOpen (placement : PopupPlacement) (type : PopupType) (s : State)
    : State :=
  match lookupPopup (config props) placement type with
  | None => s
  | Some popupConfig =>
      let delay := openDelayOf type popupConfig in
      let s1 := clearPending s in
      armTimeout (openTimerOf s placement type popupConfig) delay s1
  end.

Definition closeDelayOf (type : PopupType) (popupConfig : PopupMetadata) : Q :=
  match type with
  | HOVER => or_zero (closeDelay popupConfig)
  | CLICK => 0
  end.

Definition handleClose (s : State) : State :=
  match activePopup s with
  | None => s
  | Some ap =>
      match lookupPopup (config props) (placement ap) (type ap) with
      | None => s
      | Some popupConfig =>
          let delay := closeDelayOf (type ap) popupConfig in
          let s1 := clearPending s in
          armTimeout (CloseTimer popupConfig) delay s1
      end
  end.

(** The body of a timer callback. *)
Definition runTimer (cb : TimerCallback) (s : State) : State :=
  match cb with
  | OpenTimer finalPlacement type position popupConfig =>
      let s1 :=
        with_visibility true
          (Some {| placement := finalPlacement; type := type; position := position |})
          s in
      invoke (onOpenCallback popupConfig) s1
  | CloseTimer popupConfig =>
      let s1 := invoke (onCloseCallback popupConfig) s in
      with_visibility false None s1
  end.

(** The window runs timer [id], if it is still pending. *)
Definition fireTimer (id : nat) (s : State) : State :=
  match find (fun t => Nat.eqb (timer_id t) id) (timers s) with
  | Some t => runTimer (timer_callback t) (clearTimeout id s)
  | None => s
  end.

Definition tcallback (f : TriggerCallbacks -> option Callback) : option Callback :=
  match triggerCallbacks props with
  | Some tc => f tc
  | None => None
  end.

(** The [forEach] over [Object.entries(config)] shared by [onClick] and
    [onKeyDown]. *)
Definition openClickEntries (s : State) : State :=
  fold_left
    (fun s (entry : PopupPlacement * PopupTypes) =>
       let (placement, types) := entry in
       match click types with
       | Some _ => handleOpen placement CLICK s
       | None => s
       end)
    (config props) s.

Definition trigger_onClick (s : State) : State :=
  openClickEntries (invoke (tcallback tc_onClick) s).

Inductive Key := KeyEnter | KeySpace | KeyEscape | KeyTab (shiftKey : bool) | KeyOther.

Definition trigger_onKeyDown (key : Key) (s : State) : State :=
  match key with
  | KeyEnter | KeySpace => openClickEntries (invoke (tcallback tc_onClick) s)
  | _ => s
  end.

Definition trigger_onMouseEnter (s : State) : State :=
  let s1 := invoke (tcallback tc_onMouseEnter) s in
  let hoverEntry :=
    find (fun entry : PopupPlacement * PopupTypes =>
            match hover (snd entry) with Some _ => true | None => false end)
      (config props) in
  match hoverEntry with
  | Some entry => handleOpen (fst entry) HOVER s1
  | None => s1
  end.

(** [(popupConfig as HoverPopupMetadata)?.enterable]. *)
Definition enterableOf (popupConfig : option PopupMetadata) : bool :=
  match popupConfig with
  | Some cfg => truthy (enterable cfg)
  | None => false
  end.

Definition trigger_onMouseLeave (s : State) : State :=
  let s1 := invoke (tcallback tc_onMouseLeave) s in
  match activePopup s1 with
  | Some ap =>
      match type ap with
      | HOVER =>
          let popupConfig := lookupPopup (config props) (placement ap) HOVER in
          if negb (enterableOf popupConfig) then handleClose s1 else s1
      | CLICK => s1
      end
  | None => s1
  end.

(** The overlay exists only while [isOpen && activePopup]. *)
Definition rendered (s : State) : option ActivePopup :=
  if isOpen s then activePopup s else None.

Definition popup_onMouseEnter (s : State) : State :=
  match rendered s with
  | None => s
  | Some ap =>
      let popupConfig := lookupPopup (config props) (placement ap) (type ap) in
      match type ap with
      | HOVER =>
          if enterableOf popupConfig then
            let s1 := clearPending s in
            invoke (match popupConfig with Some cfg => onMouseEnter cfg | None => None end) s1
          else s
      | CLICK => s
      end
  end.

Definition popup_onMouseLeave (s : State) : State :=
  match rendered s with
  | None => s
  | Some ap =>
      let popupConfig := lookupPopup (config props) (placement ap) (type ap) in
      match type ap with
      | HOVER =>
          if enterableOf popupConfig then
            let s1 := handleClose s in
            invoke (match popupConfig with Some cfg => onMouseLeave cfg | None => None end) s1
          else s
      | CLICK => s
      end
  end.

(** Where a document [mousedown] lands. *)
Inductive Target := InTrigger | InPopup | Outside.

Definition isSome {A} (o : option A) : bool :=
  match o with Some _ => true | None => false end.

Definition handleClickOutside (target : Target) (s : State) : State :=
  match activePopup s with
  | Some ap =>
      match type ap, target with
      | CLICK, Outside =>
          if isSome (popupRect (dom s)) && isSome (triggerRect (dom s))
          then handleClose s else s
      | _, _ => s
      end
  | None => s
  end.

(** [triggerRef.current?.focus()]. *)
Definition focusTrigger (s : State) : State :=
  match triggerRect (dom s) with
  | Some _ => with_focus FocusTrigger s
  | None => s
  end.

(** The document [keydown] listener.  On [Tab] only the wrap-around of the
    focus trap is the component's doing; otherwise the browser moves focus. *)
Definition handleKeyDown (key : Key) (s : State) : State :=
  if negb (isOpen s) then s
  else
    match key with
    | KeyEscape => focusTrigger (handleClose s)
    | KeyTab shiftKey =>
        match activePopup s with
        | Some ap =>
            match type ap, popupRect (dom s), focusableCount s with
            | CLICK, Some _, S n =>
                let firstFocusable := FocusInPopup 0 in
                let lastFocusable := FocusInPopup n in
                if shiftKey && FocusTarget_eqb (activeElement s) firstFocusable
                then with_focus lastFocusable s
                else if negb shiftKey && FocusTarget_eqb (activeElement s) lastFocusable
                then with_focus firstFocusable s
                else s
            | _, _, _ => s
            end
        | None => s
        end
    | _ => s
    end.

(** ** Events *)

Inductive Event :=
| EvOpen (placement : PopupPlacement) (type : PopupType)
| EvClose
| EvFire (id : nat)
| EvTriggerClick
| EvTriggerKeyDown (key : Key)
| EvTriggerMouseEnter
| EvTriggerMouseLeave
| EvPopupMouseEnter
| EvPopupMouseLeave
| EvMouseDown (target : Target)
| EvKeyDown (key : Key)
| EvEffectCleanup
| EvLayout (d : Dom) (focusables : nat).

Definition step (s : State) (e : Event) : State :=
  match e with
  | EvOpen placement type => handleOpen placement type s
  | EvClose => handleClose s
  | EvFire id => fireTimer id s
  | EvTriggerClick => trigger_onClick s
  | EvTriggerKeyDown key => trigger_onKeyDown key s
  | EvTriggerMouseEnter => trigger_onMouseEnter s
  | EvTriggerMouseLeave => trigger_onMouseLeave s
  | EvPopupMouseEnter => popup_onMouseEnter s
  | EvPopupMouseLeave => popup_onMouseLeave s
  | EvMouseDown target => handleClickOutside target s
  | EvKeyDown key => handleKeyDown key s
  | EvEffectCleanup => clearPending s
  | EvLayout d focusables => with_dom d focusables s
  end.

Definition run (es : list Event) (s : State) : State := fold_left step es s.

End Handlers.

(** ** Rendering of the overlay *)

(** The string value of a [PopupPlacement] member. *)
Definition placementValue (p : PopupPlacement) : string :=
  match p with
  | TOP => "top"
  | LEFT => "left"
  | RIGHT => "right"
  | BOTTOM => "bottom"
  end.

(** The attributes of the [motion.div]. *)
Record OverlayAttrs := {
  style : option Position;
  data_placement : string;
  role : string;
  aria_live : string;
  aria_modal : bool;
  aria_hidden : bool;
  tabIndex : Z
}.

Definition renderOverlay (props : Props) (s : State) : option OverlayAttrs :=
  match rendered s with
  | None => None
  | Some activePopup =>
      Some
        {| style :=
             match position activePopup with
             | Some pos => Some pos
             | None =>
                 c_position
                   (calculatePosition props (memoActivePopup s) (dom s)
                      (placement activePopup))
             end;
           data_placement := placementValue (placement activePopup);
           role := "tooltip";
           aria_live :=
             match type activePopup with
             | HOVER => "polite"
             | CLICK => "assertive"
             end;
           aria_modal := PopupType_eqb (type activePopup) CLICK;
           aria_hidden := negb (isOpen s);
           tabIndex :=
             match type activePopup with
             | CLICK => 0%Z
             | HOVER => (-1)%Z
             end |}
  end.

(** ** Predicates on states *)

(** At most one timer is pending, and [timeoutRef] names it. *)
Definition timer_inv (s : State) : Prop :=
  match timers s with
  | [] => True
  | [t] => timeoutRef s = Some (timer_id t) /\ (timer_id t < nextTimerId s)%nat
  | _ :: _ :: _ => False
  end.


Definition optList {A} (o : option A) : list A :=
  match o with Some a => [a] | None => [] end.



(** The fields an open or close intent leaves alone. *)
Definition same_view (s s' : State) : Prop :=
  isOpen s' = isOpen s /\ activePopup s' = activePopup s /\
  activeElement s' = activeElement s /\ calls s' = calls s /\
  dom s' = dom s /\ memoActivePopup s' = memoActivePopup s.

(** The placements with a click entry, in property order. *)
Definition clickPlacements (c : MultiDirectionPopupConfig) : list PopupPlacement :=
  map fst (filter (fun entry => isSome (click (snd entry))) c).

(** The loop of [onClick] over an arbitrary run of entries. *)
Definition openEntries (props : Props) (l : MultiDirectionPopupConfig) (s : State)
    : State :=
  fold_left
    (fun s (entry : PopupPlacement * PopupTypes) =>
       let (placement, types) := entry in
       match click types with
       | Some _ => handleOpen props placement CLICK s
       | None => s
       end)
    l s.

(** The configuration with every per-entry [offset] removed. *)
Definition withoutOffset (m : PopupMetadata) : PopupMetadata :=
  {| offset := None; onMouseEnter := onMouseEnter m;
     onMouseLeave := onMouseLeave m; onOpenCallback := onOpenCallback m;
     onCloseCallback := onCloseCallback m;
     applyDefaultClassNames := applyDefaultClassNames m;
     disableFlip := disableFlip m; element := element m;
     openDelay := openDelay m; closeDelay := closeDelay m;
     enterable := enterable m |}.

Definition withoutOffsets (c : MultiDirectionPopupConfig) : MultiDirectionPopupConfig :=
  map (fun entry : PopupPlacement * PopupTypes =>
         (fst entry,
          {| click := option_map withoutOffset (click (snd entry));
             hover := option_map withoutOffset (hover (snd entry)) |}))
    c.

(** ** Concrete configurations and layouts *)

(** The viewport and trigger of the "near the top edge" test: a 100 by 30
    trigger at (400, 10) in a 1024 by 768 window, overlay not yet measured. *)
Definition nearTopDom : Dom :=
  {| triggerRect := Some (rectOf 400 10 100 30); popupRect := None;
     innerWidth := 1024; innerHeight := 768 |}.

Definition plainEntry (text : string) : PopupMetadata :=
  {| offset := None; onMouseEnter := None; onMouseLeave := None;
     onOpenCallback := None; onCloseCallback := None;
     applyDefaultClassNames := None; disableFlip := None; element := text;
     openDelay := None; closeDelay := None; enterable := None |}.

Definition topHoverProps : Props :=
  mkProps [(TOP, {| click := None; hover := Some (plainEntry "X") |})]
    None None None.

(** A 100 by 30 trigger at (100, 100) in a 1024 by 768 window. *)
Definition midDom : Dom :=
  {| triggerRect := Some (rectOf 100 100 100 30); popupRect := None;
     innerWidth := 1024; innerHeight := 768 |}.

Definition withOpenCallback (cb : Callback) (m : PopupMetadata) : PopupMetadata :=
  {| offset := offset m; onMouseEnter := onMouseEnter m;
     onMouseLeave := onMouseLeave m; onOpenCallback := Some cb;
     onCloseCallback := onCloseCallback m;
     applyDefaultClassNames := applyDefaultClassNames m;
     disableFlip := disableFlip m; element := element m;
     openDelay := openDelay m; closeDelay := closeDelay m;
     enterable := enterable m |}.

(** Click entries on two placements. *)
Definition twoClickProps : Props :=
  mkProps
    [(TOP, {| click := Some (withOpenCallback "openA"%string (plainEntry "A")); hover := None |});
     (BOTTOM, {| click := Some (withOpenCallback "openB"%string (plainEntry "B")); hover := None |})]
    None None None.

(** A hover overlay open above the trigger. *)
Definition openHoverState : State :=
  run topHoverProps [EvTriggerMouseEnter; EvFire 1] (mount midDom).

(** A click overlay open to the right of the trigger. *)
Definition rightClickProps : Props :=
  mkProps [(RIGHT, {| click := Some (plainEntry "Y"); hover := None |})]
    None None None.

Definition openClickState : State :=
  run rightClickProps [EvTriggerClick; EvFire 1] (mount midDom).

(** An open is scheduled, fires, a close is scheduled with a delay, and a
    new open arrives before the close fires: the close is gone from the
    timer table and only the new open is pending. *)
Definition slowCloseProps : Props :=
  mkProps
    [(TOP, {| click := None;
              hover := Some
                {| offset := None; onMouseEnter := None; onMouseLeave := None;
                   onOpenCallback := Some "opened"%string;
                   onCloseCallback := Some "closed"%string;
                   applyDefaultClassNames := None; disableFlip := None;
                   element := "X"; openDelay := None; closeDelay := Some 100;
                   enterable := None |} |})]
    None None None.

(** A hover entry above the trigger with its own offset of 20 pixels, the
    component's [defaultOffset] left at its default of 8. *)
Definition entryOffsetProps : Props :=
  mkProps
    [(TOP, {| click := None;
              hover := Some
                {| offset := Some 20; onMouseEnter := None; onMouseLeave := None;
                   onOpenCallback := None; onCloseCallback := None;
                   applyDefaultClassNames := None; disableFlip := None;
                   element := "X"; openDelay := None; closeDelay := None;
                   enterable := None |} |})]
    None None None.

(** A click entry above the trigger with [disableFlip: true]. *)
Definition clickNoFlipProps : Props :=
  mkProps
    [(TOP, {| click := Some
                {| offset := None; onMouseEnter := None; onMouseLeave := None;
                   onOpenCallback := None; onCloseCallback := None;
                   applyDefaultClassNames := None; disableFlip := Some true;
                   element := "X"; openDelay := None; closeDelay := None;
                   enterable := None |};
              hover := None |})]
    None None None.

(** The hover entry of the per-tooltip [disableFlip] test. *)
Definition hoverNoFlipProps : Props :=
  mkProps
    [(TOP, {| click := None;
              hover := Some
                {| offset := None; onMouseEnter := None; onMouseLeave := None;
                   onOpenCallback := None; onCloseCallback := None;
                   applyDefaultClassNames := None; disableFlip := Some true;
                   element := "No flip tooltip"; openDelay := Some 0;
                   closeDelay := None; enterable := None |} |})]
    None None None.

(** The same entry without its own flag, under the component's
    [disableFlip] prop. *)
Definition globalNoFlipProps : Props :=
  mkProps [(TOP, {| click := None; hover := Some (plainEntry "No flip tooltip") |})]
    (Some true) None None.

(** The layout once the overlay is mounted; the test suite's mock gives
    every element the rectangle of the trigger. *)
Definition midDomMounted : Dom :=
  {| triggerRect := Some (rectOf 100 100 100 30);
     popupRect := Some (rectOf 100 100 100 30);
     innerWidth := 1024; innerHeight := 768 |}.

(** An enterable hover entry to the right of the trigger, with callbacks. *)
Definition enterableEntry : PopupMetadata :=
  {| offset := None; onMouseEnter := Some "entered"%string;
     onMouseLeave := Some "left"%string;
     onOpenCallback := None; onCloseCallback := None;
     applyDefaultClassNames := None; disableFlip := None;
     element := "Hover over me!"; openDelay := None; closeDelay := Some 200;
     enterable := Some true |}.

Definition enterableProps : Props :=
  mkProps [(RIGHT, {| click := None; hover := Some enterableEntry |})]
    None None None.

Definition openEnterableState : State :=
  run enterableProps [EvTriggerMouseEnter; EvFire 1; EvLayout midDomMounted 1]
    (mount midDom).

(** A click overlay open and mounted, with three focusable descendants, the
    last of which has focus. *)
Definition trapState : State :=
  with_focus (FocusInPopup 2)
    (run rightClickProps [EvTriggerClick; EvFire 1; EvLayout midDomMounted 3]
       (mount midDom)).

(** A hover overlay that flipped below a trigger near the top edge, where
    the configuration has no entry. *)
Definition flippedState : State :=
  run topHoverProps [EvTriggerMouseEnter; EvFire 1] (mount nearTopDom).

(** A window in which the trigger is not mounted. *)
Definition unmountedDom : Dom :=
  {| triggerRect := None; popupRect := None; innerWidth := 1024; innerHeight := 768 |}.

(** ** The trigger element *)

(** The ARIA attributes of [triggerProps]; [tooltipId] is the id the
    component generates once and also gives to the overlay. *)
Record TriggerAttrs := {
  aria_describedby : option string;
  aria_expanded : bool;
  aria_haspopup : bool
}.

Definition renderTrigger (tooltipId : string) (s : State) : TriggerAttrs :=
  {| aria_describedby := if isOpen s then Some tooltipId else None;
     aria_expanded := isOpen s;
     aria_haspopup := true |}.

(** The [id] attribute of the overlay, when it is rendered. *)
Definition overlayId (tooltipId : string) (s : State) : option string :=
  match rendered s with
  | Some _ => Some tooltipId
  | None => None
  end.

(** ** The resize and scroll effect *)

(** The component state together with the refs of the resize effect, the
    [top] and [left] last assigned to the overlay's inline style, and the
    placements queued with [requestAnimationFrame], oldest first. *)
Record ResizeState := {
  st : State;
  positionRef : option Position;
  placementRef : option PopupPlacement;
  inlineStyle : option Position;
  frames : list PopupPlacement
}.

Definition mountResize (d : Dom) : ResizeState :=
  {| st := mount d; positionRef := None; placementRef := None;
     inlineStyle := None; frames := [] |}.

(** [!positionRef.current || positionRef.current.top !== pos.top ||
    positionRef.current.left !== pos.left]. *)
Definition positionChanged (ref : option Position) (pos : Position) : bool :=
  match ref with
  | None => true
  | Some r => negb (Qeq_bool (top r) (top pos)) || negb (Qeq_bool (left r) (left pos))
  end.

(** [placementRef.current !== placement]. *)
Definition placementChanged (ref : option PopupPlacement) (p : PopupPlacement) : bool :=
  match ref with
  | None => true
  | Some q => negb (PopupPlacement_eqb q p)
  end.

(** [tooltipConfig?.disableFlip]. *)
Definition entryDisableFlip (tooltipConfig : option PopupMetadata) : bool :=
  match tooltipConfig with
  | Some cfg => truthy (disableFlip cfg)
  | None => false
  end.

(** [handleResize].  [calculatePosition] returns a placement whenever it
    returns a position, so the result is matched on both. *)
Definition handleResize (props : Props) (v : ResizeState) : ResizeState :=
  let s := st v in
  match rendered s, popupRect (dom s) with
  | Some activePopup, Some _ =>
      let tooltipConfig :=
        lookupPopup (config props) (placement activePopup) (type activePopup) in
      let result :=
        calculatePosition props (memoActivePopup s) (dom s) (placement activePopup) in
      match c_position result, c_placement result with
      | Some pos, Some resultPlacement =>
          let v1 :=
            if positionChanged (positionRef v) pos then
              {| st := s; positionRef := Some pos; placementRef := placementRef v;
                 inlineStyle := Some pos; frames := frames v |}
            else v in
          if negb (entryDisableFlip tooltipConfig) && negb (globalDisableFlip props)
             && placementChanged (placementRef v1) resultPlacement
          then
            {| st := s; positionRef := positionRef v1;
               placementRef := Some resultPlacement;
               inlineStyle := inlineStyle v1;
               frames := frames v1 ++ [resultPlacement] |}
          else v1
      | _, _ => v
      end
  | _, _ => v
  end.

(** The two updates of [handleResize], for a computed position and
    placement; [allowed] is the guard on the two flip flags. *)
Definition applyResize (allowed : bool) (pos : Position) (p : PopupPlacement)
    (v : ResizeState) : ResizeState :=
  let v1 :=
    if positionChanged (positionRef v) pos then
      {| st := st v; positionRef := Some pos; placementRef := placementRef v;
         inlineStyle := Some pos; frames := frames v |}
    else v in
  if allowed && placementChanged (placementRef v1) p then
    {| st := st v; positionRef := positionRef v1; placementRef := Some p;
       inlineStyle := inlineStyle v1; frames := frames v1 ++ [p] |}
  else v1.

(** [setActivePopup(prev => prev ? { ...prev, placement } : null)]. *)
Definition commitPlacement (p : PopupPlacement) (s : State) : State :=
  with_visibility (isOpen s)
    (match activePopup s with
     | Some prev =>
         Some {| placement := p; type := type prev; position := position prev |}
     | None => None
     end)
    s.

(** The next animation frame runs the oldest queued callback. *)
Definition runFrame (v : ResizeState) : ResizeState :=
  match frames v with
  | [] => v
  | p :: rest =>
      {| st := commitPlacement p (st v); positionRef := positionRef v;
         placementRef := placementRef v; inlineStyle := inlineStyle v;
         frames := rest |}
  end.

Inductive ResizeEvent :=
| EvComponent (e : Event)
| EvResize
| EvFrame.

Definition rstep (props : Props) (v : ResizeState) (e : ResizeEvent) : ResizeState :=
  match e with
  | EvComponent e =>
      {| st := step props (st v) e; positionRef := positionRef v;
         placementRef := placementRef v; inlineStyle := inlineStyle v;
         frames := frames v |}
  | EvResize => handleResize props v
  | EvFrame => runFrame v
  end.

Definition rrun (props : Props) (es : list ResizeEvent) (v : ResizeState)
    : ResizeState :=
  fold_left (rstep props) es v.

(** A session in which the first hover entry has opened and the overlay
    has been mounted and measured. *)
Definition hoverOpenMounted (props : Props) : ResizeState :=
  rrun props
    [EvComponent EvTriggerMouseEnter; EvComponent (EvFire 1);
     EvComponent (EvLayout midDomMounted 0)]
    (mountResize midDom).

(** ** More predicates *)

(** [isOpen] and [activePopup] agree. *)
Definition visibility_sync (s : State) : Prop :=
  isOpen s = true <-> activePopup s <> None.

(** [s'] shows what [s] shows. *)
Definition same_visibility (s s' : State) : Prop :=
  isOpen s' = isOpen s /\ activePopup s' = activePopup s.

(** The events that call [handleOpen]. *)
Definition opens (e : Event) : bool :=
  match e with
  | EvOpen _ _ | EvTriggerClick | EvTriggerMouseEnter
  | EvTriggerKeyDown KeyEnter | EvTriggerKeyDown KeySpace => true
  | _ => false
  end.

(** The overlay's rectangle at position [pos] lies inside the window. *)
Definition inViewport (d : Dom) (size : Size) (pos : Position) : Prop :=
  0 <= left pos /\ left pos + width size <= innerWidth d /\
  0 <= top pos /\ top pos + height size <= innerHeight d.

(** Two positions with equal coordinates. *)
Definition samePosition (p q : Position) : Prop :=
  top p == top q /\ left p == left q.

(** ** Sessions with the re-render after an animation frame *)

(** An animation frame together with the re-render it causes.  The callback
    stores the placement.  If an overlay was active, [activePopup] is a new
    object, so the effects that depend on it are cleaned up and run again:
    the cleanup of the resize effect clears the pending timer, the keydown
    effect focuses a mounted click overlay, and the resize effect calls
    [handleResize]. *)
Definition frameAndRender (props : Props) (v : ResizeState) : ResizeState :=
  match frames v with
  | [] => v
  | _ :: _ =>
      let v1 := runFrame v in
      match activePopup (st v) with
      | Some _ =>
          let s1 := clearPending (st v1) in
          let s2 :=
            match rendered s1, popupRect (dom s1) with
            | Some ap, Some _ =>
                match type ap with
                | CLICK => with_focus FocusPopup s1
                | HOVER => s1
                end
            | _, _ => s1
            end in
          handleResize props
            {| st := s2; positionRef := positionRef v1;
               placementRef := placementRef v1; inlineStyle := inlineStyle v1;
               frames := frames v1 |}
      | None => v1
      end
  end.

(** The events that neither call [handleOpen] nor change the layout. *)
Definition keepsLayout (e : ResizeEvent) : bool :=
  match e with
  | EvComponent (EvLayout _ _) => false
  | EvComponent e => negb (opens e)
  | EvResize | EvFrame => true
  end.

(** A session in which an animation frame may also come with its re-render. *)
Inductive SessionEvent :=
| SvEvent (e : ResizeEvent)
| SvFrameRender.

Definition sstep (props : Props) (v : ResizeState) (e : SessionEvent) : ResizeState :=
  match e with
  | SvEvent e => rstep props v e
  | SvFrameRender => frameAndRender props v
  end.

Definition srun (props : Props) (es : list SessionEvent) (v : ResizeState)
    : ResizeState :=
  fold_left (sstep props) es v.

Definition sessionKeepsLayout (e : SessionEvent) : bool :=
  match e with
  | SvEvent e => keepsLayout e
  | SvFrameRender => true
  end.


(** The wording "the last pair iterated is the active one". *)
Definition last_click_pair_active (props : Props) (s : State) : Prop :=
  match rev (clickPlacements (config props)), activePopup s with
  | last :: _, Some ap => placement ap = last /\ type ap = CLICK
  | _, _ => False
  end.

(** ** More concrete configurations *)

(** A hover entry with [disableFlip] and a click entry without, both above
    the trigger. *)
Definition siblingFlagProps : Props :=
  mkProps
    [(TOP, {| click := Some (plainEntry "C");
              hover := Some
                {| offset := None; onMouseEnter := None; onMouseLeave := None;
                   onOpenCallback := None; onCloseCallback := None;
                   applyDefaultClassNames := None; disableFlip := Some true;
                   element := "H"; openDelay := None; closeDelay := None;
                   enterable := None |} |})]
    None None None.


(** Click entries below and above the trigger, in this order. *)
Definition bottomTopClickProps : Props :=
  mkProps
    [(BOTTOM, {| click := Some (withOpenCallback "openA"%string (plainEntry "A"));
                 hover := None |});
     (TOP, {| click := Some (withOpenCallback "openB"%string (plainEntry "B"));
              hover := None |})]
    None None None.

(** The layout near the top edge once the overlay is mounted and measured. *)
Definition nearTopDomMounted : Dom :=
  {| triggerRect := Some (rectOf 400 10 100 30);
     popupRect := Some (rectOf 350 48 200 40);
     innerWidth := 1024; innerHeight := 768 |}.

(** The configuration and trigger rectangle of the test "flips from top to
    bottom when near top edge", with the overlay measured as 200 by 40 once
    mounted: hover, the open fires, the overlay is mounted, the resize effect
    runs and its animation frame is committed. *)
Definition flippedSession : ResizeState :=
  rrun topHoverProps
    [EvComponent EvTriggerMouseEnter; EvComponent (EvFire 1);
     EvComponent (EvLayout nearTopDomMounted 0); EvResize; EvFrame;
     EvComponent EvEffectCleanup]
    (mountResize nearTopDom).

(** ** theme-provider.tsx *)

Module ThemeProvider.

Inductive Theme := dark | light | system.

(** The string a [Theme] is. *)
Definition themeValue (t : Theme) : string :=
  match t with
  | dark => "dark"
  | light => "light"
  | system => "system"
  end.

(** [localStorage]: its items, and whether reading or writing throws. *)
Record Storage := {
  items : string -> option string;
  getThrows : bool;
  setThrows : bool
}.

(** [localStorage.getItem(key)]; [None] when it throws. *)
Definition getItem (storage : Storage) (key : string) : option (option string) :=
  if getThrows storage then None else Some (items storage key).

(** [localStorage.setItem(key, value)]; [None] when it throws. *)
Definition setItem (storage : Storage) (key value : string) : option Storage :=
  if setThrows storage then None
  else Some {| items := fun k => if String.eqb k key then Some value else items storage k;
               getThrows := getThrows storage;
               setThrows := setThrows storage |}.

(** [stored && (stored === 'dark' || stored === 'light' || stored === 'system')]. *)
Definition validStored (stored : option string) : option Theme :=
  match stored with
  | Some v =>
      if String.eqb v "dark" then Some dark
      else if String.eqb v "light" then Some light
      else if String.eqb v "system" then Some system
      else None
  | None => None
  end.

(** What the provider reads from its environment. *)
Record Env := {
  hasWindow : bool;      (* typeof window !== 'undefined' *)
  prefersDark : bool     (* matchMedia('(prefers-color-scheme: dark)').matches *)
}.

Record ThemeProviderProps := {
  defaultTheme : Theme;
  storageKey : string
}.

(** The defaults of the destructuring. *)
Definition mkThemeProps (t : option Theme) (k : option string) : ThemeProviderProps :=
  {| defaultTheme := match t with Some t => t | None => system end;
     storageKey := match k with Some k => k | None => "ui-theme"%string end |}.

Definition getSystemTheme (env : Env) : Theme :=
  if negb (hasWindow env) then light
  else if prefersDark env then dark else light.

(** The provider: its state, the storage, the root element's class list, the
    media-query listener, and the warnings written to the console. *)
Record Provider := {
  theme : Theme;
  storage : Storage;
  classList : list string;
  listening : bool;
  warnings : list string
}.

(** The initialiser of [useState]: the theme and the warnings it logs. *)
Definition initialTheme (env : Env) (props : ThemeProviderProps) (storage : Storage)
    : Theme * list string :=
  if negb (hasWindow env) then (defaultTheme props, [])
  else
    match getItem storage (storageKey props) with
    | Some stored =>
        match validStored stored with
        | Some t => (t, [])
        | None => (defaultTheme props, [])
        end
    | None => (defaultTheme props, ["Failed to get theme from localStorage:"%string])
    end.

(** The first render, before the effect has run. *)
Definition render (env : Env) (props : ThemeProviderProps) (storage : Storage)
    (rootClasses : list string) : Provider :=
  let (t, ws) := initialTheme env props storage in
  {| theme := t; storage := storage; classList := rootClasses;
     listening := false; warnings := ws |}.

(** [classList.remove('light', 'dark')]. *)
Definition removeThemeClasses (classes : list string) : list string :=
  filter (fun c => negb (String.eqb c "light" || String.eqb c "dark")) classes.

(** [classList.add(c)]: a token already present is not added again. *)
Definition addClass (c : string) (classes : list string) : list string :=
  if existsb (String.eqb c) classes then classes else classes ++ [c].

(** The effect on [theme]: the cleanup of the previous run has removed its
    listener; the class of the effective theme replaces the old one, and a
    listener is registered only for the system theme. *)
Definition applyTheme (env : Env) (p : Provider) : Provider :=
  let effectiveTheme :=
    match theme p with
    | system => getSystemTheme env
    | t => t
    end in
  {| theme := theme p; storage := storage p;
     classList := addClass (themeValue effectiveTheme) (removeThemeClasses (classList p));
     listening := match theme p with system => true | _ => false end;
     warnings := warnings p |}.

(** A change of the system preference; [handleChange] runs if registered. *)
Definition mediaChange (matches : bool) (p : Provider) : Provider :=
  if listening p then
    {| theme := theme p; storage := storage p;
       classList :=
         addClass (if matches then "dark" else "light")
           (removeThemeClasses (classList p));
       listening := listening p; warnings := warnings p |}
  else p.

(** [value.setTheme(newTheme)] of the context. *)
Definition setTheme (props : ThemeProviderProps) (newTheme : Theme) (p : Provider)
    : Provider :=
  match setItem (storage p) (storageKey props) (themeValue newTheme) with
  | Some storage' =>
      {| theme := newTheme; storage := storage'; classList := classList p;
         listening := listening p; warnings := warnings p |}
  | None =>
      {| theme := newTheme; storage := storage p; classList := classList p;
         listening := listening p;
         warnings := warnings p ++ ["Failed to save theme to localStorage:"%string] |}
  end.

(** [setTheme] followed by the re-render: the effect runs again when the
    theme has changed. *)
Definition selectTheme (env : Env) (props : ThemeProviderProps) (newTheme : Theme)
    (p : Provider) : Provider :=
  let p1 := setTheme props newTheme p in
  match theme p, newTheme with
  | dark, dark | light, light | system, system => p1
  | _, _ => applyTheme env p1
  end.

(** The provider after its first render and effect. *)
Definition mountProvider (env : Env) (props : ThemeProviderProps) (storage : Storage)
    (rootClasses : list string) : Provider :=
  applyTheme env (render env props storage rootClasses).

(** What happens to a mounted provider: a consumer selects a theme, or the
    system preference changes. *)
Inductive ThemeEvent :=
| Select (newTheme : Theme)
| MediaChange (matches : bool).

Definition themeStep (env : Env) (props : ThemeProviderProps) (p : Provider)
    (e : ThemeEvent) : Provider :=
  match e with
  | Select newTheme => selectTheme env props newTheme p
  | MediaChange matches => mediaChange matches p
  end.

Definition themeRun (env : Env) (props : ThemeProviderProps) (es : list ThemeEvent)
    (p : Provider) : Provider :=
  fold_left (themeStep env props) es p.

(** Exactly one of the two theme classes is present: [c]. *)
Definition onlyThemeClass (c : string) (classes : list string) : Prop :=
  (c = "light"%string \/ c = "dark"%string) /\
  forall x, (x = "light"%string \/ x = "dark"%string) -> (In x classes <-> x = c).

End ThemeProvider.

(** * Numbers and enumerations *)

Lemma Qltb_spec (x y : Q) : Qltb x y = true <-> x < y.
Proof.
  unfold Qltb. rewrite Qlt_alt. destruct (x ?= y); split; congruence.
Qed.

Lemma Qgtb_spec (x y : Q) : Qgtb x y = true <-> y < x.
Proof. apply Qltb_spec. Qed.

Lemma PopupPlacement_eqb_eq (a b : PopupPlacement) :
  PopupPlacement_eqb a b = true <-> a = b.
Proof. destruct a, b; simpl; split; congruence. Qed.

Lemma PopupPlacement_eqb_refl (a : PopupPlacement) : PopupPlacement_eqb a a = true.
Proof. now destruct a. Qed.

(** * Geometry: the position formula and the flip rule *)

Section Geometry.

Variables (props : Props) (seen : option ActivePopup) (d : Dom).

(** With the trigger mounted, the returned position is always the table
    entry of the returned placement. *)
Lemma calculatePosition_position (P : PopupPlacement) (trig : DOMRect) :
  triggerRect d = Some trig ->
  exists P',
    c_placement (calculatePosition props seen d P) = Some P' /\
    c_position (calculatePosition props seen d P) =
      Some (positions trig (popupSize d) (defaultOffset props) P').
Proof.
  intros Htrig. unfold calculatePosition. rewrite Htrig.
  destruct (flipDisabled props seen P); eexists; split; reflexivity.
Qed.

(** With flipping suppressed the result is the requested placement. *)
Lemma calculatePosition_flipDisabled (P : PopupPlacement) (trig : DOMRect) :
  triggerRect d = Some trig ->
  flipDisabled props seen P = true ->
  calculatePosition props seen d P =
    {| c_position := Some (positions trig (popupSize d) (defaultOffset props) P);
       c_placement := Some P |}.
Proof.
  intros Htrig Hflip. unfold calculatePosition. now rewrite Htrig, Hflip.
Qed.

(** The global flag alone suppresses flipping. *)
Lemma flipDisabled_global (P : PopupPlacement) :
  globalDisableFlip props = true -> flipDisabled props seen P = true.
Proof. intros H. unfold flipDisabled. rewrite H. apply orb_true_r. Qed.

End Geometry.

(** C1. At this input flipping is allowed for the click entry being opened:
    it has no [disableFlip] and the component has none.  The base position of
    the requested top placement has a negative top, so the first-match rule
    asks for bottom.  The click-triggered open stays at top, at the
    overflowing base position: the guard of [calculatePosition] reads the
    hover entry of the placement while nothing is active, and that entry's
    flag is set. *)
Theorem C1_click_open_not_flipped_under_hover_flag :
  let s := run siblingFlagProps [EvTriggerClick; EvFire 1] (mount nearTopDom) in
  option_map disableFlip (lookupPopup (config siblingFlagProps) TOP CLICK) = Some None /\
  globalDisableFlip siblingFlagProps = false /\
  flipDisabled siblingFlagProps (memoActivePopup (mount nearTopDom)) TOP = true /\
  (exists pos,
     activePopup s = Some {| placement := TOP; type := CLICK; position := Some pos |} /\
     top pos == 10 - 40 - 8 /\ top pos < 0) /\
  option_map data_placement (renderOverlay siblingFlagProps s) = Some "top"%string.
Proof.
  split; [reflexivity | ]. split; [reflexivity | ]. split; [reflexivity | ].
  split; [ | vm_compute; reflexivity].
  eexists. split; [vm_compute; reflexivity | ].
  split; [reflexivity | vm_compute; reflexivity].
Qed.

(** C2. The base position of each placement: above the trigger by the
    overlay height and the offset, below its bottom edge by the offset, left
    of its left edge by the overlay width and the offset, right of its right
    edge by the offset; on the other axis the centre of the overlay is the
    centre of the trigger. *)
Theorem C2_base_position (trigger : DOMRect) (overlay : Size) (offset : Q) :
  let pos := positions trigger overlay offset in
  (top (pos TOP) = r_top trigger - height overlay - offset /\
   left (pos TOP) + width overlay / 2 == r_left trigger + r_width trigger / 2) /\
  (top (pos BOTTOM) = r_bottom trigger + offset /\
   left (pos BOTTOM) + width overlay / 2 == r_left trigger + r_width trigger / 2) /\
  (left (pos LEFT) = r_left trigger - width overlay - offset /\
   top (pos LEFT) + height overlay / 2 == r_top trigger + r_height trigger / 2) /\
  (left (pos RIGHT) = r_right trigger + offset /\
   top (pos RIGHT) + height overlay / 2 == r_top trigger + r_height trigger / 2).
Proof.
  cbv zeta. simpl.
  repeat split; field.
Qed.

(** * Lifecycle: the pending timer *)

Lemma mount_timer_inv (d : Dom) : timer_inv (mount d).
Proof. exact I. Qed.

Lemma invoke_calls (cb : option Callback) (s : State) :
  calls (invoke cb s) = calls s ++ optList cb.
Proof. destruct cb; simpl; [reflexivity | now rewrite app_nil_r]. Qed.

(** ** Properties of the timer table that every event preserves *)

Section Preservation.

Variable props : Props.

(** [P] survives every update of visibility, focus, the callback log and
    the layout, survives [clearTimeout], and survives arming a timer once the
    pending one has been cleared. *)
Variable P : State -> Prop.

Hypothesis P_visibility : forall o ap s, P s -> P (with_visibility o ap s).

Hypothesis P_focus : forall f s, P s -> P (with_focus f s).

Hypothesis P_calls : forall cs s, P s -> P (with_calls cs s).

Hypothesis P_dom : forall d n s, P s -> P (with_dom d n s).

Hypothesis P_clearTimeout : forall id s, P s -> P (clearTimeout id s).

Hypothesis P_rearm :
  forall cb delay s, P s -> P (armTimeout cb delay (clearPending s)).

Lemma P_clearPending (s : State) : P s -> P (clearPending s).
Proof.
  unfold clearPending. destruct (timeoutRef s); [apply P_clearTimeout | trivial].
Qed.

Lemma P_invoke (cb : option Callback) (s : State) : P s -> P (invoke cb s).
Proof. destruct cb; [apply P_calls | trivial]. Qed.

Lemma P_handleOpen (placement : PopupPlacement) (type : PopupType) (s : State) :
  P s -> P (handleOpen props placement type s).
Proof.
  intros H. unfold handleOpen.
  destruct (lookupPopup (config props) placement type); [now apply P_rearm | exact H].
Qed.

Lemma P_handleClose (s : State) : P s -> P (handleClose props s).
Proof.
  intros H. unfold handleClose.
  destruct (activePopup s) as [ap|]; [ | exact H].
  destruct (lookupPopup (config props) (placement ap) (type ap));
    [now apply P_rearm | exact H].
Qed.

Lemma P_runTimer (cb : TimerCallback) (s : State) : P s -> P (runTimer cb s).
Proof.
  intros H. destruct cb as [fp ty pos cfg | cfg]; simpl.
  - now apply P_invoke, P_visibility.
  - now apply P_visibility, P_invoke.
Qed.

Lemma P_fireTimer (id : nat) (s : State) : P s -> P (fireTimer id s).
Proof.
  intros H. unfold fireTimer.
  destruct (find _ (timers s)); [ | exact H].
  now apply P_runTimer, P_clearTimeout.
Qed.

Lemma P_openClickEntries (s : State) : P s -> P (openClickEntries props s).
Proof.
  unfold openClickEntries. revert s.
  induction (config props) as [|[p types] rest IH]; intros s H; simpl; [exact H | ].
  apply IH. destruct (click types); [now apply P_handleOpen | exact H].
Qed.

Lemma P_step (s : State) (e : Event) : P s -> P (step props s e).
Proof.
  intros H. destruct e; simpl.
  - now apply P_handleOpen.
  - now apply P_handleClose.
  - now apply P_fireTimer.
  - now apply P_openClickEntries, P_invoke.
  - destruct key; simpl; try exact H; now apply P_openClickEntries, P_invoke.
  - unfold trigger_onMouseEnter.
    destruct (find _ (config props)); [apply P_handleOpen | ]; now apply P_invoke.
  - unfold trigger_onMouseLeave.
    pose proof (P_invoke (tcallback props tc_onMouseLeave) s H) as H1.
    destruct (activePopup _) as [ap|]; [ | exact H1].
    destruct (type ap); [ | exact H1].
    destruct (negb _); [now apply P_handleClose | exact H1].
  - unfold popup_onMouseEnter.
    destruct (rendered s) as [ap|]; [ | exact H].
    destruct (type ap); [ | exact H].
    destruct (enterableOf _); [ | exact H].
    now apply P_invoke, P_clearPending.
  - unfold popup_onMouseLeave.
    destruct (rendered s) as [ap|]; [ | exact H].
    destruct (type ap); [ | exact H].
    destruct (enterableOf _); [ | exact H].
    now apply P_invoke, P_handleClose.
  - unfold handleClickOutside.
    destruct (activePopup s) as [ap|]; [ | exact H].
    destruct (type ap), target; try exact H.
    destruct (_ && _); [now apply P_handleClose | exact H].
  - unfold handleKeyDown.
    destruct (negb (isOpen s)); [exact H | ].
    destruct key; try exact H.
    + unfold focusTrigger.
      pose proof (P_handleClose s H) as H1.
      destruct (triggerRect _); [now apply P_focus | exact H1].
    + destruct (activePopup s) as [ap|]; [ | exact H].
      destruct (type ap), (popupRect (dom s)), (focusableCount s); try exact H.
      destruct (_ && _); [now apply P_focus | ].
      destruct (_ && _); [now apply P_focus | exact H].
  - now apply P_clearPending.
  - now apply P_dom.
Qed.

Lemma P_run (es : list Event) (s : State) : P s -> P (run props es s).
Proof.
  unfold run. revert s.
  induction es as [|e es IH]; intros s H; simpl; [exact H | ].
  apply IH, P_step, H.
Qed.

End Preservation.

Section Lifecycle.

Variable props : Props.

Lemma clearPending_nil (s : State) :
  timer_inv s -> timers (clearPending s) = [].
Proof.
  unfold timer_inv, clearPending.
  destruct (timers s) as [|t [|t' ts]] eqn:E; intros H.
  - destruct (timeoutRef s); simpl; now rewrite ?E.
  - destruct H as [-> _]. simpl. rewrite E. simpl.
    now rewrite Nat.eqb_refl.
  - contradiction.
Qed.

Lemma clearPending_frame (s : State) :
  isOpen (clearPending s) = isOpen s /\
  activePopup (clearPending s) = activePopup s /\
  nextTimerId (clearPending s) = nextTimerId s /\
  activeElement (clearPending s) = activeElement s /\
  calls (clearPending s) = calls s /\
  dom (clearPending s) = dom s /\
  memoActivePopup (clearPending s) = memoActivePopup s /\
  timeoutRef (clearPending s) = timeoutRef s.
Proof. unfold clearPending. destruct (timeoutRef s) eqn:E; simpl; auto 10. Qed.

(** Arming after clearing leaves exactly the new timer. *)
Lemma rearm_timers (cb : TimerCallback) (delay : Q) (s : State) :
  timer_inv s ->
  timers (armTimeout cb delay (clearPending s)) =
    [{| timer_id := nextTimerId s; timer_delay := delay; timer_callback := cb |}].
Proof.
  intros H. unfold armTimeout. simpl. rewrite (clearPending_nil s H).
  destruct (clearPending_frame s) as (_ & _ & -> & _). reflexivity.
Qed.

Lemma timer_inv_clearTimeout (id : nat) (s : State) :
  timer_inv s -> timer_inv (clearTimeout id s).
Proof.
  unfold timer_inv, clearTimeout. simpl.
  destruct (timers s) as [|t [|t' ts]]; intros H; simpl; try contradiction.
  - exact I.
  - destruct (negb (timer_id t =? id)%nat); [exact H | exact I].
Qed.

Lemma timer_inv_rearm (cb : TimerCallback) (delay : Q) (s : State) :
  timer_inv s -> timer_inv (armTimeout cb delay (clearPending s)).
Proof.
  intros H. unfold timer_inv. rewrite (rearm_timers cb delay s H). simpl.
  destruct (clearPending_frame s) as (_ & _ & -> & _). split; [reflexivity | lia].
Qed.

(** The invariant holds along every run. *)
Lemma run_timer_inv (es : list Event) (s : State) :
  timer_inv s -> timer_inv (run props es s).
Proof.
  apply P_run; auto using timer_inv_clearTimeout, timer_inv_rearm.
Qed.

Lemma timer_inv_length (s : State) : timer_inv s -> (List.length (timers s) <= 1)%nat.
Proof.
  unfold timer_inv. destruct (timers s) as [|t [|t' ts]]; simpl; intros H;
    [lia | lia | contradiction].
Qed.




(** No event rebinds the [activePopup] that the memoised
    [calculatePosition] sees: it stays the one of the first render. *)
Lemma run_memoActivePopup (es : list Event) (s : State) :
  memoActivePopup (run props es s) = memoActivePopup s.
Proof.
  apply (P_run props (fun s' => memoActivePopup s' = memoActivePopup s));
    try (intros; assumption); try reflexivity.
  intros cb delay s' H. simpl.
  destruct (clearPending_frame s') as (_ & _ & _ & _ & _ & _ & -> & _). exact H.
Qed.

(** The window does nothing for a timer that is not pending. *)
Lemma fireTimer_not_pending (id : nat) (s : State) :
  Forall (fun t => timer_id t <> id) (timers s) -> fireTimer id s = s.
Proof.
  intros H. unfold fireTimer.
  destruct (find _ (timers s)) as [t|] eqn:E; [ | reflexivity].
  apply find_some in E. destruct E as [Hin Heq].
  rewrite Forall_forall in H. apply H in Hin.
  apply Nat.eqb_eq in Heq. contradiction.
Qed.



End Lifecycle.




(** * Intents and the interaction router *)

Lemma same_view_refl (s : State) : same_view s s.
Proof. repeat split. Qed.

Lemma same_view_trans (s1 s2 s3 : State) :
  same_view s1 s2 -> same_view s2 s3 -> same_view s1 s3.
Proof.
  unfold same_view. intros (A1 & A2 & A3 & A4 & A5 & A6) (B1 & B2 & B3 & B4 & B5 & B6).
  repeat split; congruence.
Qed.

Lemma rearm_view (cb : TimerCallback) (delay : Q) (s : State) :
  same_view s (armTimeout cb delay (clearPending s)).
Proof.
  destruct (clearPending_frame s) as (A1 & A2 & _ & A3 & A4 & A5 & A6 & _).
  unfold same_view, armTimeout. simpl. repeat split; assumption.
Qed.

Lemma handleOpen_view (props : Props) (p : PopupPlacement) (t : PopupType) (s : State) :
  same_view s (handleOpen props p t s).
Proof.
  unfold handleOpen. destruct (lookupPopup (config props) p t);
    [apply rearm_view | apply same_view_refl].
Qed.

Lemma handleClose_view (props : Props) (s : State) :
  same_view s (handleClose props s).
Proof.
  unfold handleClose. destruct (activePopup s) as [ap|]; [ | apply same_view_refl].
  destruct (lookupPopup (config props) (placement ap) (type ap));
    [apply rearm_view | apply same_view_refl].
Qed.

Lemma openClickEntries_openEntries (props : Props) (s : State) :
  openClickEntries props s = openEntries props (config props) s.
Proof. reflexivity. Qed.

Lemma openEntries_app (props : Props) (l1 l2 : MultiDirectionPopupConfig) (s : State) :
  openEntries props (l1 ++ l2) s = openEntries props l2 (openEntries props l1 s).
Proof. unfold openEntries. apply fold_left_app. Qed.

Lemma openEntries_no_click (props : Props) (l : MultiDirectionPopupConfig) (s : State) :
  Forall (fun entry => click (snd entry) = None) l -> openEntries props l s = s.
Proof.
  induction 1 as [|[p types] l Hx _ IH]; simpl; [reflexivity | ].
  simpl in Hx. rewrite Hx. exact IH.
Qed.

Lemma openEntries_view (props : Props) (l : MultiDirectionPopupConfig) (s : State) :
  same_view s (openEntries props l s).
Proof.
  revert s. induction l as [|[p types] l IH]; intros s; simpl;
    [apply same_view_refl | ].
  destruct (click types).
  - eapply same_view_trans; [apply handleOpen_view | apply IH].
  - apply IH.
Qed.

Lemma openEntries_inv (props : Props) (l : MultiDirectionPopupConfig) (s : State) :
  timer_inv s -> timer_inv (openEntries props l s).
Proof.
  revert s. induction l as [|[p types] l IH]; intros s H; simpl; [exact H | ].
  apply IH. destruct (click types); [ | exact H].
  now apply (P_handleOpen props timer_inv timer_inv_rearm).
Qed.

(** The loop issues one [handleOpen] per click placement, in order. *)
Lemma openEntries_as_opens (props : Props) (l : MultiDirectionPopupConfig) (s : State) :
  openEntries props l s =
    run props (map (fun q => EvOpen q CLICK) (clickPlacements l)) s.
Proof.
  revert s. induction l as [|[p types] l IH]; intros s; simpl; [reflexivity | ].
  unfold clickPlacements. simpl. destruct (click types); simpl; apply IH.
Qed.

Lemma lookupPlacement_In (c : MultiDirectionPopupConfig) (p : PopupPlacement)
    (types : PopupTypes) :
  NoDup (map fst c) -> In (p, types) c -> lookupPlacement c p = Some types.
Proof.
  induction c as [|[q ts] c IH]; simpl; intros Hnd Hin; [contradiction | ].
  inversion Hnd as [|? ? Hnotin Hnd']; subst.
  destruct Hin as [[= -> ->] | Hin].
  - now rewrite PopupPlacement_eqb_refl.
  - destruct (PopupPlacement_eqb q p) eqn:E.
    + apply PopupPlacement_eqb_eq in E. subst q.
      exfalso. apply Hnotin. apply (in_map fst) in Hin. exact Hin.
    + now apply IH.
Qed.

Lemma fireTimer_single (t : Timer) (s : State) :
  timers s = [t] ->
  fireTimer (timer_id t) s = runTimer (timer_callback t) (clearTimeout (timer_id t) s).
Proof.
  intros H. unfold fireTimer. rewrite H. simpl. now rewrite Nat.eqb_refl.
Qed.

Lemma clearTimeout_single (t : Timer) (s : State) :
  timers s = [t] -> timers (clearTimeout (timer_id t) s) = [].
Proof.
  intros H. unfold clearTimeout. simpl. rewrite H. simpl. now rewrite Nat.eqb_refl.
Qed.

(** C6. A click on the trigger, and likewise Enter or Space, issues
    [handleOpen(placement, CLICK)] for every placement with a click entry, in
    property order.  Afterwards the one pending timer is the open of the last
    such placement; when it fires, the single [activePopup] slot holds the
    overlay that this last open resolved, and its [onOpenCallback] is the
    only open callback invoked. *)
Theorem C6_click_last_wins (props : Props) (s : State)
    (pre post : MultiDirectionPopupConfig) (p : PopupPlacement)
    (types : PopupTypes) (cfg : PopupMetadata) :
  NoDup (map fst (config props)) ->
  config props = pre ++ (p, types) :: post ->
  click types = Some cfg ->
  Forall (fun entry => click (snd entry) = None) post ->
  timer_inv s ->
  let s1 := trigger_onClick props s in
  let calc := calculatePosition props (memoActivePopup s) (dom s) p in
  let opened :=
    {| placement := match c_placement calc with Some q => q | None => p end;
       type := CLICK;
       position := c_position calc |} in
  trigger_onKeyDown props KeyEnter s = s1 /\
  trigger_onKeyDown props KeySpace s = s1 /\
  s1 = run props (map (fun q => EvOpen q CLICK) (clickPlacements (config props)))
         (invoke (tcallback props tc_onClick) s) /\
  exists id,
    timers s1 =
      [{| timer_id := id; timer_delay := 0;
          timer_callback := OpenTimer (placement opened) CLICK (position opened) cfg |}] /\
    isOpen s1 = isOpen s /\ activePopup s1 = activePopup s /\
    let s2 := fireTimer id s1 in
    isOpen s2 = true /\ activePopup s2 = Some opened /\ timers s2 = [] /\
    calls s2 =
      calls s ++ optList (tcallback props tc_onClick) ++ optList (onOpenCallback cfg).
Proof.
  intros Hnd Hcfg Hclick Hpost Hinv s1 calc opened.
  split; [reflexivity | ]. split; [reflexivity | ].
  split; [unfold s1, trigger_onClick; rewrite openClickEntries_openEntries;
          apply openEntries_as_opens | ].
  set (sc := invoke (tcallback props tc_onClick) s).
  assert (Hsc_inv : timer_inv sc)
    by (unfold sc; destruct (tcallback props tc_onClick); exact Hinv).
  assert (Hsc_view : isOpen sc = isOpen s /\ activePopup sc = activePopup s /\
                     dom sc = dom s /\ memoActivePopup sc = memoActivePopup s)
    by (unfold sc; destruct (tcallback props tc_onClick); simpl; auto).
  destruct Hsc_view as (V1 & V2 & V3 & V4).
  set (sp := openEntries props pre sc).
  pose proof (openEntries_inv props pre sc Hsc_inv) as Hsp_inv. fold sp in Hsp_inv.
  destruct (openEntries_view props pre sc) as (W1 & W2 & _ & W4 & W5 & W6).
  fold sp in W1, W2, W4, W5, W6.
  assert (Hlook : lookupPopup (config props) p CLICK = Some cfg).
  { unfold lookupPopup. rewrite (lookupPlacement_In (config props) p types Hnd).
    - exact Hclick.
    - rewrite Hcfg. apply in_or_app. right. now left. }
  assert (Hs1 : s1 = armTimeout (openTimerOf props sp p CLICK cfg) 0 (clearPending sp)).
  { unfold s1, trigger_onClick. rewrite openClickEntries_openEntries, Hcfg.
    fold sc. rewrite openEntries_app. fold sp. simpl. rewrite Hclick.
    change (fold_left _ post ?x) with (openEntries props post x).
    rewrite (openEntries_no_click props post _ Hpost).
    unfold handleOpen. rewrite Hlook. reflexivity. }
  assert (Hcb : openTimerOf props sp p CLICK cfg =
                OpenTimer (placement opened) CLICK (position opened) cfg).
  { unfold openTimerOf. rewrite W5, W6, V3, V4. reflexivity. }
  rewrite Hcb in Hs1.
  set (t := {| timer_id := nextTimerId sp; timer_delay := 0;
               timer_callback :=
                 OpenTimer (placement opened) CLICK (position opened) cfg |}).
  assert (Ht : timers s1 = [t])
    by (rewrite Hs1; now apply rearm_timers).
  destruct (rearm_view (OpenTimer (placement opened) CLICK (position opened) cfg) 0 sp)
    as (X1 & X2 & _ & X4 & _).
  rewrite <- Hs1 in X1, X2, X4.
  exists (nextTimerId sp). split; [exact Ht | ].
  split; [congruence | ]. split; [congruence | ].
  pose proof (fireTimer_single t s1 Ht) as Hf.
  change (timer_id t) with (nextTimerId sp) in Hf.
  change (timer_callback t)
    with (OpenTimer (placement opened) CLICK (position opened) cfg) in Hf.
  cbv zeta. rewrite Hf. simpl.
  split; [now destruct (onOpenCallback cfg) | ].
  split; [now destruct (onOpenCallback cfg) | ].
  split.
  - pose proof (clearTimeout_single t s1 Ht) as Hc.
    change (timer_id t) with (nextTimerId sp) in Hc.
    destruct (onOpenCallback cfg); simpl; exact Hc.
  - rewrite invoke_calls. simpl. rewrite X4, W4. unfold sc.
    rewrite invoke_calls. now rewrite <- app_assoc.
Qed.

Lemma C6_click_last_wins_witness :
  exists id,
    let s2 := fireTimer id (trigger_onClick twoClickProps (mount midDom)) in
    isOpen s2 = true /\
    (exists pos,
       activePopup s2 = Some {| placement := BOTTOM; type := CLICK; position := pos |}) /\
    calls s2 = ["openB"%string].
Proof.
  destruct (C6_click_last_wins twoClickProps (mount midDom)
              [(TOP, {| click := Some (withOpenCallback "openA"%string (plainEntry "A"));
                        hover := None |})]
              [] BOTTOM
              {| click := Some (withOpenCallback "openB"%string (plainEntry "B")); hover := None |}
              (withOpenCallback "openB"%string (plainEntry "B")))
    as (_ & _ & _ & id & _ & _ & _ & Hopen & Hactive & _ & Hcalls).
  - simpl. repeat constructor; simpl; intuition discriminate.
  - reflexivity.
  - reflexivity.
  - constructor.
  - exact I.
  - exists id. split; [exact Hopen | ]. split; [ | exact Hcalls].
    eexists. exact Hactive.
Defined.

(** Near the top edge the open of the last pair, (top, click), flips to
    bottom: the active pair is then (bottom, click), a pair iterated earlier,
    although the callback invoked is the last pair's. *)
Lemma C6_counterexample_flipped_last_pair :
  let s := run bottomTopClickProps [EvTriggerClick; EvFire 2] (mount nearTopDom) in
  clickPlacements (config bottomTopClickProps) = [BOTTOM; TOP] /\
  isOpen s = true /\ calls s = ["openB"%string] /\
  (exists pos,
     activePopup s = Some {| placement := BOTTOM; type := CLICK; position := pos |}) /\
  ~ last_click_pair_active bottomTopClickProps s.
Proof.
  split; [reflexivity | ]. split; [reflexivity | ]. split; [reflexivity | ].
  split; [eexists; vm_compute; reflexivity | ].
  intros H. vm_compute in H. destruct H as [H _]. discriminate H.
Qed.

(** C7. An open for a placement and mode without an entry in the
    configuration changes nothing: visibility, timers, [timeoutRef], the log
    of invoked callbacks and everything else stay as they were, and the call
    always returns. *)
Theorem C7_open_missing_entry (props : Props) (placement : PopupPlacement)
    (type : PopupType) (s : State) :
  lookupPopup (config props) placement type = None ->
  handleOpen props placement type s = s.
Proof. intros H. unfold handleOpen. now rewrite H. Qed.

Lemma C7_open_missing_entry_witness :
  handleOpen topHoverProps TOP CLICK (mount midDom) = mount midDom.
Proof. apply C7_open_missing_entry. reflexivity. Defined.

(** X25. While an overlay is open, Escape runs [handleClose] and then, in
    the same handler run, moves focus to the trigger.  When the active
    overlay's placement and mode have an entry in the configuration, the
    close is the one pending timer, and once it fires the overlay is closed,
    [onCloseCallback] has run once and focus is still on the trigger. *)
Theorem escape_closes_with_entry (props : Props) (s : State) (trig : DOMRect) :
  isOpen s = true ->
  triggerRect (dom s) = Some trig ->
  let s' := handleKeyDown props KeyEscape s in
  s' = with_focus FocusTrigger (handleClose props s) /\
  activeElement s' = FocusTrigger /\
  forall ap cfg,
    timer_inv s ->
    activePopup s = Some ap ->
    lookupPopup (config props) (placement ap) (type ap) = Some cfg ->
    timers s' =
      [{| timer_id := nextTimerId s; timer_delay := closeDelayOf (type ap) cfg;
          timer_callback := CloseTimer cfg |}] /\
    let s'' := fireTimer (nextTimerId s) s' in
    isOpen s'' = false /\ activePopup s'' = None /\ timers s'' = [] /\
    activeElement s'' = FocusTrigger /\
    calls s'' = calls s ++ optList (onCloseCallback cfg).
Proof.
  intros Hopen Htrig s'.
  assert (Hs' : s' = with_focus FocusTrigger (handleClose props s)).
  { unfold s', handleKeyDown, focusTrigger. rewrite Hopen. simpl.
    destruct (handleClose_view props s) as (_ & _ & _ & _ & -> & _).
    now rewrite Htrig. }
  split; [exact Hs' | ]. split; [now rewrite Hs' | ].
  intros ap cfg Hinv Hap Hlook.
  assert (Hc : handleClose props s =
               armTimeout (CloseTimer cfg) (closeDelayOf (type ap) cfg) (clearPending s))
    by (unfold handleClose; now rewrite Hap, Hlook).
  set (t := {| timer_id := nextTimerId s; timer_delay := closeDelayOf (type ap) cfg;
               timer_callback := CloseTimer cfg |}).
  assert (Ht : timers s' = [t]).
  { rewrite Hs'. simpl. rewrite Hc. now apply rearm_timers. }
  split; [exact Ht | ].
  pose proof (fireTimer_single t s' Ht) as Hf.
  change (timer_id t) with (nextTimerId s) in Hf.
  change (timer_callback t) with (CloseTimer cfg) in Hf.
  cbv zeta. rewrite Hf. simpl.
  split; [reflexivity | ]. split; [reflexivity | ].
  split.
  - pose proof (clearTimeout_single t s' Ht) as Hclr.
    change (timer_id t) with (nextTimerId s) in Hclr.
    destruct (onCloseCallback cfg); exact Hclr.
  - split.
    + destruct (onCloseCallback cfg); simpl; now rewrite Hs'.
    + rewrite invoke_calls. simpl. rewrite Hs'. simpl.
      destruct (handleClose_view props s) as (_ & _ & _ & -> & _). reflexivity.
Qed.

Lemma escape_closes_with_entry_witness :
  let s' := handleKeyDown topHoverProps KeyEscape openHoverState in
  activeElement s' = FocusTrigger /\
  isOpen (fireTimer (nextTimerId openHoverState) s') = false.
Proof.
  destruct (escape_closes_with_entry topHoverProps openHoverState
              (rectOf 100 100 100 30) eq_refl eq_refl) as (_ & Hfocus & Hclose).
  split; [exact Hfocus | ].
  destruct (Hclose {| placement := TOP; type := HOVER;
                      position := c_position
                        (calculatePosition topHoverProps None midDom TOP) |}
              (plainEntry "X") I eq_refl eq_refl) as (_ & Hclosed & _).
  exact Hclosed.
Defined.

(** C8. The configuration and trigger rectangle of the test "flips from
    top to bottom when near top edge": a hover entry above a trigger near the
    top edge, opened by hover, flipped to bottom, where the configuration has
    no entry.  The overlay is open; Escape runs
    [handleClose], which finds no entry and schedules nothing, and focus goes
    to the trigger; whatever fires or is committed afterwards, the overlay
    stays rendered at bottom. *)
Theorem C8_escape_leaves_flipped_overlay_open :
  let s := st flippedSession in
  let s' := handleKeyDown topHoverProps KeyEscape s in
  let later :=
    rrun topHoverProps
      [EvComponent (EvKeyDown KeyEscape); EvComponent (EvFire 1);
       EvComponent (EvFire 2); EvComponent EvEffectCleanup; EvResize; EvFrame;
       EvComponent (EvKeyDown KeyEscape); EvComponent (EvFire 2)]
      flippedSession in
  isOpen s = true /\
  option_map data_placement (renderOverlay topHoverProps s) = Some "bottom"%string /\
  lookupPopup (config topHoverProps) BOTTOM HOVER = None /\
  handleClose topHoverProps s = s /\
  timers s' = [] /\ activeElement s' = FocusTrigger /\ isOpen s' = true /\
  isOpen (st later) = true /\
  option_map data_placement (renderOverlay topHoverProps (st later)) =
    Some "bottom"%string.
Proof. vm_compute. repeat split. Qed.



(** C10. With a click overlay active, a mouse-leave on the trigger only
    reports to the host's [onMouseLeave]: visibility and the timer table are
    untouched.  Whenever a trigger mouse-leave does change the timer table,
    the active overlay is a hover overlay. *)
Theorem C10_mouse_leave_click (props : Props) (s : State) (ap : ActivePopup) :
  activePopup s = Some ap ->
  type ap = CLICK ->
  let s' := trigger_onMouseLeave props s in
  s' = invoke (tcallback props tc_onMouseLeave) s /\
  isOpen s' = isOpen s /\ activePopup s' = activePopup s /\
  timers s' = timers s /\ timeoutRef s' = timeoutRef s /\
  nextTimerId s' = nextTimerId s /\
  forall s0,
    timers (trigger_onMouseLeave props s0) <> timers s0 ->
    exists ap0, activePopup s0 = Some ap0 /\ type ap0 = HOVER.
Proof.
  intros Hap Hty s'.
  assert (Hs' : s' = invoke (tcallback props tc_onMouseLeave) s).
  { unfold s', trigger_onMouseLeave.
    destruct (tcallback props tc_onMouseLeave); simpl; now rewrite Hap, Hty. }
  split; [exact Hs' | ].
  rewrite Hs'.
  repeat (split; [now destruct (tcallback props tc_onMouseLeave) | ]).
  intros s0 Hne. unfold trigger_onMouseLeave in Hne.
  assert (Hi : timers (invoke (tcallback props tc_onMouseLeave) s0) = timers s0 /\
               activePopup (invoke (tcallback props tc_onMouseLeave) s0) = activePopup s0)
    by (destruct (tcallback props tc_onMouseLeave); split; reflexivity).
  destruct Hi as [Hit Hia]. rewrite Hia in Hne.
  destruct (activePopup s0) as [ap0|]; [ | congruence].
  exists ap0. split; [reflexivity | ].
  destruct (type ap0); [reflexivity | congruence].
Qed.

Lemma C10_mouse_leave_click_witness :
  trigger_onMouseLeave rightClickProps openClickState = openClickState.
Proof.
  exact (proj1 (C10_mouse_leave_click rightClickProps openClickState
                  {| placement := RIGHT; type := CLICK;
                     position := c_position
                       (calculatePosition rightClickProps None midDom RIGHT) |}
                  eq_refl eq_refl)).
Defined.

Example open_close_open :
  let s :=
    run slowCloseProps
      [EvTriggerMouseEnter; EvFire 1; EvTriggerMouseLeave; EvTriggerMouseEnter]
      (mount midDom) in
  map timer_id (timers s) = [3%nat] /\
  fireTimer 2 s = s /\
  calls (run slowCloseProps [EvFire 2; EvFire 3; EvFire 2] s) =
    ["opened"; "opened"]%string.
Proof. vm_compute. repeat split. Qed.

(** * Per-entry overrides *)

Lemma lookupPopup_withoutOffsets (c : MultiDirectionPopupConfig)
    (p : PopupPlacement) (t : PopupType) :
  lookupPopup (withoutOffsets c) p t = option_map withoutOffset (lookupPopup c p t).
Proof.
  unfold lookupPopup.
  induction c as [|[q types] c IH]; simpl; [reflexivity | ].
  destruct (PopupPlacement_eqb q p); [now destruct t | exact IH].
Qed.

(** X24. No per-entry [offset] reaches the position: the computation is the
    same with all of them removed. *)
Lemma calculatePosition_ignores_entry_offset (props : Props)
    (seen : option ActivePopup) (d : Dom) (P : PopupPlacement) :
  calculatePosition props seen d P =
  calculatePosition
    {| config := withoutOffsets (config props);
       globalDisableFlip := globalDisableFlip props;
       defaultOffset := defaultOffset props;
       triggerCallbacks := triggerCallbacks props |}
    seen d P.
Proof.
  unfold calculatePosition, flipDisabled. simpl.
  rewrite lookupPopup_withoutOffsets.
  now destruct (lookupPopup (config props) P (seenType seen)).
Qed.

(** C3. At this input the overlay opens 8 pixels above the trigger, the
    global default, not the 20 pixels of its own entry: its top is
    100 - 40 - 8 = 52 and not 100 - 40 - 20 = 40. *)
Theorem C3_entry_offset_not_applied :
  let s := run entryOffsetProps [EvTriggerMouseEnter; EvFire 1] (mount midDom) in
  exists pos,
    activePopup s = Some {| placement := TOP; type := HOVER; position := Some pos |} /\
    top pos == 100 - 40 - 8 /\
    ~ top pos == 100 - 40 - 20.
Proof.
  eexists. split; [vm_compute; reflexivity | ].
  split; [reflexivity | ].
  intros H. vm_compute in H. discriminate H.
Qed.

(** The entry consulted for [disableFlip] is the one of the mode in
    [activePopup], or the hover entry when nothing is active. *)
Lemma flipDisabled_seen_entry (props : Props) (seen : option ActivePopup)
    (P : PopupPlacement) (cfg : PopupMetadata) :
  lookupPopup (config props) P (seenType seen) = Some cfg ->
  disableFlip cfg = Some true ->
  flipDisabled props seen P = true.
Proof. intros Hl Hd. unfold flipDisabled. now rewrite Hl, Hd. Qed.

(** C4. At this input, a trigger 10 pixels below the top edge, the click
    entry asks for no flipping, yet the click-triggered open resolves to the
    bottom placement: the guard looks up the hover entry of the placement
    while nothing is active, and there is none. *)
Theorem C4_click_entry_disableFlip_not_applied :
  let s := run clickNoFlipProps [EvTriggerClick; EvFire 1] (mount nearTopDom) in
  option_map disableFlip (lookupPopup (config clickNoFlipProps) TOP CLICK) =
    Some (Some true) /\
  flipDisabled clickNoFlipProps (memoActivePopup (mount nearTopDom)) TOP = false /\
  (exists pos,
     activePopup s = Some {| placement := BOTTOM; type := CLICK; position := pos |}) /\
  option_map data_placement (renderOverlay clickNoFlipProps s) = Some "bottom"%string.
Proof.
  split; [reflexivity | ]. split; [reflexivity | ].
  split; [eexists; vm_compute; reflexivity | vm_compute; reflexivity].
Qed.

(** * Scenarios of the test suite *)

(** Hover shows the overlay above the trigger; leaving removes it. *)
Example scenario_hover_open_close :
  let opened := run topHoverProps [EvTriggerMouseEnter; EvFire 1] (mount midDom) in
  let closed := run topHoverProps [EvTriggerMouseLeave; EvFire 2] opened in
  option_map data_placement (renderOverlay topHoverProps opened) = Some "top"%string /\
  renderOverlay topHoverProps closed = None.
Proof. vm_compute. split; reflexivity. Qed.

(** A click shows a modal overlay; a mousedown elsewhere in the document
    removes it, a mousedown inside the overlay or on the trigger does not. *)
Example scenario_click_outside :
  let opened :=
    run rightClickProps [EvTriggerClick; EvFire 1; EvLayout midDomMounted 0]
      (mount midDom) in
  option_map aria_modal (renderOverlay rightClickProps opened) = Some true /\
  renderOverlay rightClickProps
    (run rightClickProps [EvMouseDown Outside; EvFire 2] opened) = None /\
  run rightClickProps [EvMouseDown InPopup] opened = opened /\
  run rightClickProps [EvMouseDown InTrigger] opened = opened.
Proof. vm_compute. repeat split. Qed.

(** Near the top edge: bottom when flipping is allowed, top under the
    component's [disableFlip] and under a hover entry's own [disableFlip]. *)
Example scenario_flip_and_disableFlip :
  let placementAfterHover props :=
    option_map data_placement
      (renderOverlay props
         (run props [EvTriggerMouseEnter; EvFire 1] (mount nearTopDom))) in
  placementAfterHover topHoverProps = Some "bottom"%string /\
  placementAfterHover globalNoFlipProps = Some "top"%string /\
  placementAfterHover hoverNoFlipProps = Some "top"%string.
Proof. vm_compute. repeat split. Qed.

(** * Opening and closing, from intent to fired timer *)

(** The state in which the timer armed by an intent runs its callback. *)
Lemma fire_rearm (cb : TimerCallback) (delay : Q) (s : State) :
  timer_inv s ->
  fireTimer (nextTimerId s) (armTimeout cb delay (clearPending s)) =
    runTimer cb (with_timers (Some (nextTimerId s)) [] (S (nextTimerId s)) s).
Proof.
  intros H. unfold fireTimer. rewrite (rearm_timers cb delay s H). simpl.
  rewrite Nat.eqb_refl. f_equal.
  unfold clearTimeout, armTimeout. simpl.
  rewrite (clearPending_nil s H). simpl.
  destruct (clearPending_frame s) as (_ & _ & -> & _).
  rewrite Nat.eqb_refl. simpl.
  unfold with_timers. simpl.
  unfold clearPending. now destruct (timeoutRef s).
Qed.

Lemma handleOpen_entry (props : Props) (P : PopupPlacement) (t : PopupType)
    (cfg : PopupMetadata) (s : State) :
  lookupPopup (config props) P t = Some cfg ->
  handleOpen props P t s =
    armTimeout (openTimerOf props s P t cfg) (openDelayOf t cfg) (clearPending s).
Proof. intros H. unfold handleOpen. now rewrite H. Qed.

Lemma handleClose_entry (props : Props) (ap : ActivePopup) (cfg : PopupMetadata)
    (s : State) :
  activePopup s = Some ap ->
  lookupPopup (config props) (placement ap) (type ap) = Some cfg ->
  handleClose props s =
    armTimeout (CloseTimer cfg) (closeDelayOf (type ap) cfg) (clearPending s).
Proof. intros Ha Hl. unfold handleClose. now rewrite Ha, Hl. Qed.

Lemma handleClose_no_entry (props : Props) (s : State) (ap : ActivePopup) :
  activePopup s = Some ap ->
  lookupPopup (config props) (placement ap) (type ap) = None ->
  handleClose props s = s.
Proof. intros Hap Hl. unfold handleClose. now rewrite Hap, Hl. Qed.

(** The placement an open of [P] resolves to in state [s]. *)
Lemma openTimerOf_eq (props : Props) (s : State) (P : PopupPlacement) (t : PopupType)
    (cfg : PopupMetadata) :
  openTimerOf props s P t cfg =
    let calc := calculatePosition props (memoActivePopup s) (dom s) P in
    OpenTimer (match c_placement calc with Some q => q | None => P end) t
      (c_position calc) cfg.
Proof. reflexivity. Qed.

(** X1. A base position inside the window is returned as it is, whatever
    the flip flags. *)
Theorem calculatePosition_in_viewport (props : Props) (seen : option ActivePopup)
    (d : Dom) (P : PopupPlacement) (trig : DOMRect) :
  triggerRect d = Some trig ->
  inViewport d (popupSize d) (positions trig (popupSize d) (defaultOffset props) P) ->
  calculatePosition props seen d P =
    {| c_position := Some (positions trig (popupSize d) (defaultOffset props) P);
       c_placement := Some P |}.
Proof.
  intros Htrig. set (base := positions trig (popupSize d) (defaultOffset props) P).
  intros (H1 & H2 & H3 & H4). unfold calculatePosition. rewrite Htrig.
  destruct (flipDisabled props seen P); [reflexivity | ].
  assert (E : finalPlacementOf d (popupSize d) base P = P).
  { unfold finalPlacementOf, Qgtb.
    destruct (Qltb (left base) 0) eqn:E1.
    { apply Qltb_spec in E1. exfalso. now apply (Qle_not_lt _ _ H1). }
    destruct (Qltb (innerWidth d) (left base + width (popupSize d))) eqn:E2.
    { apply Qltb_spec in E2. exfalso. now apply (Qle_not_lt _ _ H2). }
    destruct (Qltb (top base) 0) eqn:E3.
    { apply Qltb_spec in E3. exfalso. now apply (Qle_not_lt _ _ H3). }
    destruct (Qltb (innerHeight d) (top base + height (popupSize d))) eqn:E4.
    { apply Qltb_spec in E4. exfalso. now apply (Qle_not_lt _ _ H4). }
    reflexivity. }
  fold base. now rewrite E.
Qed.

Lemma calculatePosition_in_viewport_witness :
  calculatePosition topHoverProps None midDom TOP =
    {| c_position :=
         Some (positions (rectOf 100 100 100 30) (popupSize midDom)
                 (defaultOffset topHoverProps) TOP);
       c_placement := Some TOP |}.
Proof.
  apply calculatePosition_in_viewport; [reflexivity | ].
  repeat split; vm_compute; discriminate.
Defined.

(** X2. In every state reached from the first render, an open under the
    component's [disableFlip], or a hover open of an entry with its own
    [disableFlip], shows the overlay at the requested placement and at its
    base position, inside the window or not. *)
Theorem open_with_disableFlip (props : Props) (d : Dom) (es : list Event)
    (P : PopupPlacement) (t : PopupType) (cfg : PopupMetadata) (trig : DOMRect) :
  let s := run props es (mount d) in
  lookupPopup (config props) P t = Some cfg ->
  globalDisableFlip props = true \/ (t = HOVER /\ disableFlip cfg = Some true) ->
  triggerRect (dom s) = Some trig ->
  let s' := fireTimer (nextTimerId s) (handleOpen props P t s) in
  isOpen s' = true /\
  activePopup s' =
    Some {| placement := P; type := t;
            position :=
              Some (positions trig (popupSize (dom s)) (defaultOffset props) P) |}.
Proof.
  intros s Hl Hflag Htrig s'.
  assert (Hinv : timer_inv s) by (apply run_timer_inv; exact I).
  assert (Hmemo : memoActivePopup s = None) by (unfold s; now rewrite run_memoActivePopup).
  assert (Hd : flipDisabled props None P = true).
  { destruct Hflag as [Hg | [-> Hc]].
    - now apply flipDisabled_global.
    - now apply (flipDisabled_seen_entry props None P cfg). }
  unfold s'. rewrite (handleOpen_entry props P t cfg s Hl), (fire_rearm _ _ s Hinv).
  rewrite openTimerOf_eq, Hmemo.
  rewrite (calculatePosition_flipDisabled props None (dom s) P trig Htrig Hd). simpl.
  now destruct (onOpenCallback cfg).
Qed.

Lemma open_with_disableFlip_witness :
  activePopup
    (fireTimer 1 (handleOpen hoverNoFlipProps TOP HOVER (mount nearTopDom))) =
    Some {| placement := TOP; type := HOVER;
            position :=
              Some (positions (rectOf 400 10 100 30) (popupSize nearTopDom)
                      (defaultOffset hoverNoFlipProps) TOP) |}.
Proof.
  exact (proj2 (open_with_disableFlip hoverNoFlipProps nearTopDom [] TOP HOVER
                  {| offset := None; onMouseEnter := None; onMouseLeave := None;
                     onOpenCallback := None; onCloseCallback := None;
                     applyDefaultClassNames := None; disableFlip := Some true;
                     element := "No flip tooltip"; openDelay := Some 0;
                     closeDelay := None; enterable := None |}
                  (rectOf 400 10 100 30) eq_refl (or_intror (conj eq_refl eq_refl))
                  eq_refl)).
Defined.

(** X3. Without a mounted trigger nothing is computed: the open still goes
    through, at the requested placement and with no position, and the
    overlay is rendered without [top] and [left]. *)
Theorem open_without_trigger (props : Props) (s : State) (P : PopupPlacement)
    (t : PopupType) (cfg : PopupMetadata) :
  timer_inv s ->
  lookupPopup (config props) P t = Some cfg ->
  triggerRect (dom s) = None ->
  let s' := fireTimer (nextTimerId s) (handleOpen props P t s) in
  activePopup s' = Some {| placement := P; type := t; position := None |} /\
  option_map style (renderOverlay props s') = Some None /\
  option_map data_placement (renderOverlay props s') = Some (placementValue P).
Proof.
  intros Hinv Hl Htrig s'.
  assert (Hs' : s' = runTimer (OpenTimer P t None cfg)
                       (with_timers (Some (nextTimerId s)) [] (S (nextTimerId s)) s)).
  { unfold s'. rewrite (handleOpen_entry props P t cfg s Hl), (fire_rearm _ _ s Hinv).
    rewrite openTimerOf_eq. unfold calculatePosition. now rewrite Htrig. }
  rewrite Hs'. unfold renderOverlay, rendered, calculatePosition. simpl.
  destruct (onOpenCallback cfg); simpl; rewrite Htrig; repeat split.
Qed.

Lemma open_without_trigger_witness :
  activePopup (fireTimer 1 (handleOpen topHoverProps TOP HOVER (mount unmountedDom))) =
    Some {| placement := TOP; type := HOVER; position := None |}.
Proof.
  exact (proj1 (open_without_trigger topHoverProps (mount unmountedDom) TOP HOVER
                  (plainEntry "X") I eq_refl eq_refl)).
Defined.

Lemma runTimer_open (P : PopupPlacement) (t : PopupType) (pos : option Position)
    (cfg : PopupMetadata) (s : State) :
  let s' := runTimer (OpenTimer P t pos cfg) s in
  isOpen s' = true /\
  activePopup s' = Some {| placement := P; type := t; position := pos |} /\
  timers s' = timers s /\ timeoutRef s' = timeoutRef s /\
  nextTimerId s' = nextTimerId s /\
  calls s' = calls s ++ optList (onOpenCallback cfg) /\
  activeElement s' = activeElement s /\ dom s' = dom s /\
  memoActivePopup s' = memoActivePopup s.
Proof.
  simpl. destruct (onOpenCallback cfg); simpl; rewrite ?app_nil_r; repeat split.
Qed.

Lemma runTimer_close (cfg : PopupMetadata) (s : State) :
  let s' := runTimer (CloseTimer cfg) s in
  isOpen s' = false /\ activePopup s' = None /\
  timers s' = timers s /\ timeoutRef s' = timeoutRef s /\
  nextTimerId s' = nextTimerId s /\
  calls s' = calls s ++ optList (onCloseCallback cfg) /\
  activeElement s' = activeElement s /\ dom s' = dom s /\
  memoActivePopup s' = memoActivePopup s.
Proof.
  simpl. destruct (onCloseCallback cfg); simpl; rewrite ?app_nil_r; repeat split.
Qed.

(** X4. An open followed by a close, each with its timer fired, ends closed
    with no timer pending; [onOpenCallback] of the opened entry and
    [onCloseCallback] of the entry at the resolved placement were each
    invoked once, in this order. *)
Theorem open_close_cycle (props : Props) (s : State) (P : PopupPlacement)
    (t : PopupType) (cfg cfg' : PopupMetadata) :
  timer_inv s ->
  lookupPopup (config props) P t = Some cfg ->
  let calc := calculatePosition props (memoActivePopup s) (dom s) P in
  let resolved := match c_placement calc with Some q => q | None => P end in
  lookupPopup (config props) resolved t = Some cfg' ->
  let n := nextTimerId s in
  let s' := run props [EvOpen P t; EvFire n; EvClose; EvFire (S n)] s in
  isOpen s' = false /\ activePopup s' = None /\ timers s' = [] /\
  calls s' = calls s ++ optList (onOpenCallback cfg) ++ optList (onCloseCallback cfg').
Proof.
  intros Hinv Hl calc resolved Hl' n s'.
  set (s0 := with_timers (Some n) [] (S n) s).
  set (s1 := runTimer (OpenTimer resolved t (c_position calc) cfg) s0).
  assert (H1 : run props [EvOpen P t; EvFire n] s = s1).
  { unfold run. simpl. rewrite (handleOpen_entry props P t cfg s Hl).
    unfold n. rewrite (fire_rearm _ _ s Hinv). reflexivity. }
  destruct (runTimer_open resolved t (c_position calc) cfg s0)
    as (O1 & O2 & O3 & O4 & O5 & O6 & _).
  fold s1 in O1, O2, O3, O4, O5, O6.
  assert (Hinv1 : timer_inv s1) by (unfold timer_inv; now rewrite O3).
  assert (H2 : s' = runTimer (CloseTimer cfg')
                      (with_timers (Some (S n)) [] (S (S n)) s1)).
  { unfold s'. change [EvOpen P t; EvFire n; EvClose; EvFire (S n)]
      with ([EvOpen P t; EvFire n] ++ [EvClose; EvFire (S n)]).
    unfold run in *. rewrite fold_left_app, H1. simpl.
    rewrite (handleClose_entry props _ cfg' s1 O2 Hl').
    change (S n) with (nextTimerId s0). rewrite <- O5.
    now rewrite (fire_rearm _ _ s1 Hinv1). }
  destruct (runTimer_close cfg' (with_timers (Some (S n)) [] (S (S n)) s1))
    as (C1 & C2 & C3 & _ & _ & C6 & _).
  rewrite H2. repeat split; try assumption.
  rewrite C6. simpl. rewrite O6. simpl. now rewrite <- app_assoc.
Qed.

Lemma open_close_cycle_witness :
  calls (run slowCloseProps [EvOpen TOP HOVER; EvFire 1; EvClose; EvFire 2]
           (mount midDom)) = ["opened"; "closed"]%string.
Proof.
  destruct (open_close_cycle slowCloseProps (mount midDom) TOP HOVER
              {| offset := None; onMouseEnter := None; onMouseLeave := None;
                 onOpenCallback := Some "opened"%string;
                 onCloseCallback := Some "closed"%string;
                 applyDefaultClassNames := None; disableFlip := None;
                 element := "X"; openDelay := None; closeDelay := Some 100;
                 enterable := None |}
              {| offset := None; onMouseEnter := None; onMouseLeave := None;
                 onOpenCallback := Some "opened"%string;
                 onCloseCallback := Some "closed"%string;
                 applyDefaultClassNames := None; disableFlip := None;
                 element := "X"; openDelay := None; closeDelay := Some 100;
                 enterable := None |}
              I eq_refl eq_refl) as (_ & _ & _ & H).
  exact H.
Defined.

Lemma find_filtered (id : nat) (ts : list Timer) :
  find (fun t => Nat.eqb (timer_id t) id)
    (filter (fun t => negb (Nat.eqb (timer_id t) id)) ts) = None.
Proof.
  induction ts as [|t ts IH]; simpl; [reflexivity | ].
  destruct (Nat.eqb (timer_id t) id) eqn:E; simpl; [exact IH | ].
  now rewrite E.
Qed.

Lemma runTimer_timers (cb : TimerCallback) (s : State) :
  timers (runTimer cb s) = timers s.
Proof.
  destruct cb as [P t pos cfg | cfg].
  - apply (runTimer_open P t pos cfg s).
  - apply (runTimer_close cfg s).
Qed.

(** X5. A timer runs its callback at most once: firing it again changes
    nothing, and one firing invokes at most one host callback. *)
Theorem fireTimer_once (id : nat) (s : State) :
  fireTimer id (fireTimer id s) = fireTimer id s /\
  exists invoked,
    calls (fireTimer id s) = calls s ++ invoked /\ (List.length invoked <= 1)%nat.
Proof.
  unfold fireTimer at 2 3 4.
  destruct (find _ (timers s)) as [t|] eqn:E.
  - split.
    + unfold fireTimer. rewrite runTimer_timers. simpl. now rewrite find_filtered.
    + destruct (timer_callback t) as [P ty pos cfg | cfg].
      * exists (optList (onOpenCallback cfg)). split.
        -- apply (runTimer_open P ty pos cfg (clearTimeout id s)).
        -- destruct (onOpenCallback cfg); simpl; lia.
      * exists (optList (onCloseCallback cfg)). split.
        -- apply (runTimer_close cfg (clearTimeout id s)).
        -- destruct (onCloseCallback cfg); simpl; lia.
  - split.
    + unfold fireTimer. now rewrite E.
    + exists []. split; [now rewrite app_nil_r | simpl; lia].
Qed.

Lemma invoke_visibility (cb : option Callback) (s : State) :
  same_visibility s (invoke cb s).
Proof. destruct cb; split; reflexivity. Qed.

Lemma same_view_visibility (s s' : State) : same_view s s' -> same_visibility s s'.
Proof. intros (H1 & H2 & _). now split. Qed.

Lemma same_visibility_trans (s1 s2 s3 : State) :
  same_visibility s1 s2 -> same_visibility s2 s3 -> same_visibility s1 s3.
Proof. unfold same_visibility. intros [A1 A2] [B1 B2]. split; congruence. Qed.

Lemma clearPending_visibility (s : State) : same_visibility s (clearPending s).
Proof. destruct (clearPending_frame s) as (H1 & H2 & _). now split. Qed.

Lemma step_same_visibility (props : Props) (s : State) (e : Event) :
  (forall id, e <> EvFire id) -> same_visibility s (step props s e).
Proof.
  intros Hne.
  assert (Hrefl : same_visibility s s) by (split; reflexivity).
  destruct e; simpl.
  - apply same_view_visibility, handleOpen_view.
  - apply same_view_visibility, handleClose_view.
  - now contradiction (Hne id).
  - eapply same_visibility_trans; [apply invoke_visibility | ].
    apply same_view_visibility, (openEntries_view props (config props)).
  - destruct key; simpl; try exact Hrefl;
      (eapply same_visibility_trans; [apply invoke_visibility | ];
       apply same_view_visibility, (openEntries_view props (config props))).
  - unfold trigger_onMouseEnter. destruct (find _ (config props)).
    + eapply same_visibility_trans; [apply invoke_visibility | ].
      apply same_view_visibility, handleOpen_view.
    + apply invoke_visibility.
  - unfold trigger_onMouseLeave.
    pose proof (invoke_visibility (tcallback props tc_onMouseLeave) s) as Hi.
    destruct (activePopup (invoke _ s)) as [ap|]; [ | exact Hi].
    destruct (type ap); [ | exact Hi].
    destruct (negb _); [ | exact Hi].
    eapply same_visibility_trans; [exact Hi | ].
    apply same_view_visibility, handleClose_view.
  - unfold popup_onMouseEnter.
    destruct (rendered s) as [ap|]; [ | exact Hrefl].
    destruct (type ap); [ | exact Hrefl].
    destruct (enterableOf _); [ | exact Hrefl].
    eapply same_visibility_trans; [apply clearPending_visibility | apply invoke_visibility].
  - unfold popup_onMouseLeave.
    destruct (rendered s) as [ap|]; [ | exact Hrefl].
    destruct (type ap); [ | exact Hrefl].
    destruct (enterableOf _); [ | exact Hrefl].
    eapply same_visibility_trans; [ | apply invoke_visibility].
    apply same_view_visibility, handleClose_view.
  - unfold handleClickOutside.
    destruct (activePopup s) as [ap|]; [ | exact Hrefl].
    destruct (type ap), target; try exact Hrefl.
    destruct (_ && _); [ | exact Hrefl].
    apply same_view_visibility, handleClose_view.
  - unfold handleKeyDown.
    destruct (negb (isOpen s)); [exact Hrefl | ].
    destruct key; try exact Hrefl.
    + unfold focusTrigger.
      pose proof (same_view_visibility _ _ (handleClose_view props s)) as Hc.
      destruct (triggerRect _); exact Hc.
    + destruct (activePopup s) as [ap|]; [ | exact Hrefl].
      destruct (type ap), (popupRect (dom s)), (focusableCount s); try exact Hrefl.
      destruct (_ && _); [exact Hrefl | ].
      destruct (_ && _); exact Hrefl.
  - apply clearPending_visibility.
  - exact Hrefl.
Qed.

(** X6. No handler opens or closes on the spot: every event other than the
    firing of a timer leaves [isOpen] and [activePopup] as they are. *)
Theorem visibility_changes_only_on_fire (props : Props) (s : State) (e : Event) :
  (forall id, e <> EvFire id) ->
  isOpen (step props s e) = isOpen s /\ activePopup (step props s e) = activePopup s.
Proof. apply step_same_visibility. Qed.

Lemma visibility_changes_only_on_fire_witness :
  isOpen (step twoClickProps (mount midDom) EvTriggerClick) = false.
Proof.
  apply (proj1 (visibility_changes_only_on_fire twoClickProps (mount midDom)
                  EvTriggerClick (fun id H => eq_ind EvTriggerClick
                     (fun e => match e with EvTriggerClick => True | _ => False end)
                     I (EvFire id) H))).
Defined.

(** X7. Each trigger event reports to its host callback exactly once and
    invokes nothing else on the spot; a key other than Enter and Space on the
    trigger does nothing at all. *)
Theorem trigger_events_report_once (props : Props) (s : State) :
  calls (trigger_onClick props s) = calls s ++ optList (tcallback props tc_onClick) /\
  calls (trigger_onKeyDown props KeyEnter s) =
    calls s ++ optList (tcallback props tc_onClick) /\
  calls (trigger_onKeyDown props KeySpace s) =
    calls s ++ optList (tcallback props tc_onClick) /\
  calls (trigger_onMouseEnter props s) =
    calls s ++ optList (tcallback props tc_onMouseEnter) /\
  calls (trigger_onMouseLeave props s) =
    calls s ++ optList (tcallback props tc_onMouseLeave) /\
  forall key,
    key <> KeyEnter -> key <> KeySpace -> trigger_onKeyDown props key s = s.
Proof.
  assert (Hclick : calls (trigger_onClick props s) =
                   calls s ++ optList (tcallback props tc_onClick)).
  { unfold trigger_onClick. rewrite openClickEntries_openEntries.
    destruct (openEntries_view props (config props)
                (invoke (tcallback props tc_onClick) s)) as (_ & _ & _ & -> & _).
    apply invoke_calls. }
  split; [exact Hclick | ]. split; [exact Hclick | ]. split; [exact Hclick | ].
  split; [ | split].
  - unfold trigger_onMouseEnter. destruct (find _ (config props)).
    + destruct (handleOpen_view props (fst p) HOVER
                  (invoke (tcallback props tc_onMouseEnter) s)) as (_ & _ & _ & -> & _).
      apply invoke_calls.
    + apply invoke_calls.
  - unfold trigger_onMouseLeave.
    set (s1 := invoke (tcallback props tc_onMouseLeave) s).
    assert (H1 : calls s1 = calls s ++ optList (tcallback props tc_onMouseLeave))
      by apply invoke_calls.
    destruct (activePopup s1) as [ap|]; [ | exact H1].
    destruct (type ap); [ | exact H1].
    destruct (negb _); [ | exact H1].
    destruct (handleClose_view props s1) as (_ & _ & _ & -> & _). exact H1.
  - intros key H1 H2. destruct key; try reflexivity; contradiction.
Qed.

(** * The interaction router *)

Lemma find_first_hover (pre post : MultiDirectionPopupConfig)
    (entry : PopupPlacement * PopupTypes) (cfg : PopupMetadata) :
  Forall (fun e => hover (snd e) = None) pre ->
  hover (snd entry) = Some cfg ->
  find (fun e : PopupPlacement * PopupTypes =>
          match hover (snd e) with Some _ => true | None => false end)
    (pre ++ entry :: post) = Some entry.
Proof.
  intros Hpre Hh. induction Hpre as [|e pre He _ IH]; simpl.
  - now rewrite Hh.
  - now rewrite He.
Qed.

(** X8. A pointer entering the trigger opens the first hover entry in
    property order, after the entry's [openDelay] (0 when absent); hover
    entries of later placements are never opened this way. *)
Theorem hover_opens_first_entry (props : Props) (s : State)
    (pre post : MultiDirectionPopupConfig) (p : PopupPlacement)
    (types : PopupTypes) (cfg : PopupMetadata) :
  NoDup (map fst (config props)) ->
  config props = pre ++ (p, types) :: post ->
  Forall (fun e => hover (snd e) = None) pre ->
  hover types = Some cfg ->
  timer_inv s ->
  let s' := trigger_onMouseEnter props s in
  s' = handleOpen props p HOVER (invoke (tcallback props tc_onMouseEnter) s) /\
  timers s' =
    [{| timer_id := nextTimerId s; timer_delay := or_zero (openDelay cfg);
        timer_callback := openTimerOf props s p HOVER cfg |}].
Proof.
  intros Hnd Hcfg Hpre Hh Hinv s'.
  assert (Hs' : s' = handleOpen props p HOVER (invoke (tcallback props tc_onMouseEnter) s)).
  { unfold s', trigger_onMouseEnter. rewrite Hcfg.
    now rewrite (find_first_hover pre post (p, types) cfg Hpre Hh). }
  split; [exact Hs' | ].
  assert (Hl : lookupPopup (config props) p HOVER = Some cfg).
  { unfold lookupPopup. rewrite (lookupPlacement_In (config props) p types Hnd).
    - exact Hh.
    - rewrite Hcfg. apply in_or_app. right. now left. }
  rewrite Hs', (handleOpen_entry props p HOVER cfg _ Hl).
  set (s1 := invoke (tcallback props tc_onMouseEnter) s).
  assert (Hinv1 : timer_inv s1) by (unfold s1; destruct (tcallback props _); exact Hinv).
  rewrite (rearm_timers _ _ s1 Hinv1).
  assert (E : nextTimerId s1 = nextTimerId s /\
              openTimerOf props s1 p HOVER cfg = openTimerOf props s p HOVER cfg)
    by (unfold s1; destruct (tcallback props _); split; reflexivity).
  destruct E as [-> ->]. reflexivity.
Qed.

(** Hover entries on two placements, the second with a delay. *)
Lemma hover_opens_first_entry_witness :
  map timer_callback
    (timers
       (trigger_onMouseEnter
          (mkProps
             [(RIGHT, {| click := Some (plainEntry "C"); hover := None |});
              (TOP, {| click := None; hover := Some (plainEntry "A") |});
              (BOTTOM, {| click := None; hover := Some (plainEntry "B") |})]
             None None None)
          (mount midDom))) =
    [OpenTimer TOP HOVER
       (c_position (calculatePosition topHoverProps None midDom TOP))
       (plainEntry "A")].
Proof.
  rewrite (proj2 (hover_opens_first_entry
                    (mkProps
                       [(RIGHT, {| click := Some (plainEntry "C"); hover := None |});
                        (TOP, {| click := None; hover := Some (plainEntry "A") |});
                        (BOTTOM, {| click := None; hover := Some (plainEntry "B") |})]
                       None None None)
                    (mount midDom)
                    [(RIGHT, {| click := Some (plainEntry "C"); hover := None |})]
                    [(BOTTOM, {| click := None; hover := Some (plainEntry "B") |})]
                    TOP {| click := None; hover := Some (plainEntry "A") |}
                    (plainEntry "A")
                    ltac:(simpl; repeat constructor; simpl; intuition discriminate)
                    eq_refl
                    ltac:(repeat constructor)
                    eq_refl I)).
  reflexivity.
Defined.

(** X9. A pointer leaving the trigger while a hover overlay is active: if
    the active placement has a hover entry that is not enterable, the close
    is scheduled after the entry's [closeDelay] (0 when absent); if the entry
    is enterable, or the active placement has no hover entry (as after a flip
    to a side that is not configured), nothing is scheduled and only the
    host's [onMouseLeave] is invoked. *)
Theorem trigger_leave_hover (props : Props) (s : State) (ap : ActivePopup) :
  timer_inv s ->
  activePopup s = Some ap ->
  type ap = HOVER ->
  let s' := trigger_onMouseLeave props s in
  (forall cfg,
     lookupPopup (config props) (placement ap) HOVER = Some cfg ->
     truthy (enterable cfg) = false ->
     timers s' =
       [{| timer_id := nextTimerId s; timer_delay := or_zero (closeDelay cfg);
           timer_callback := CloseTimer cfg |}]) /\
  (forall cfg,
     lookupPopup (config props) (placement ap) HOVER = Some cfg ->
     truthy (enterable cfg) = true ->
     s' = invoke (tcallback props tc_onMouseLeave) s) /\
  (lookupPopup (config props) (placement ap) HOVER = None ->
   s' = invoke (tcallback props tc_onMouseLeave) s).
Proof.
  intros Hinv Hap Hty s'.
  set (s1 := invoke (tcallback props tc_onMouseLeave) s).
  assert (E : activePopup s1 = Some ap /\ nextTimerId s1 = nextTimerId s /\ timer_inv s1)
    by (unfold s1; destruct (tcallback props _); repeat split; assumption).
  destruct E as (Hap1 & Hn1 & Hinv1).
  assert (Hs' : s' =
            if negb (enterableOf (lookupPopup (config props) (placement ap) HOVER))
            then handleClose props s1 else s1).
  { unfold s', trigger_onMouseLeave. fold s1. now rewrite Hap1, Hty. }
  split; [ | split].
  - intros cfg Hl He. rewrite Hs', Hl. simpl. rewrite He. simpl.
    assert (Hl' : lookupPopup (config props) (placement ap) (type ap) = Some cfg)
      by now rewrite Hty.
    rewrite (handleClose_entry props ap cfg s1 Hap1 Hl'), (rearm_timers _ _ s1 Hinv1).
    now rewrite Hn1, Hty.
  - intros cfg Hl He. rewrite Hs', Hl. simpl. now rewrite He.
  - intros Hl. rewrite Hs', Hl. simpl.
    apply (handleClose_no_entry props s1 ap Hap1). now rewrite Hty.
Qed.

Lemma trigger_leave_hover_witness :
  map timer_delay (timers (trigger_onMouseLeave slowCloseProps
                             (run slowCloseProps [EvTriggerMouseEnter; EvFire 1]
                                (mount midDom)))) = [or_zero (Some 100)] /\
  trigger_onMouseLeave topHoverProps flippedState = flippedState.
Proof.
  split.
  - rewrite (proj1 (trigger_leave_hover slowCloseProps
                      (run slowCloseProps [EvTriggerMouseEnter; EvFire 1] (mount midDom))
                      {| placement := TOP; type := HOVER;
                         position := c_position
                           (calculatePosition slowCloseProps None midDom TOP) |}
                      I eq_refl eq_refl)
               {| offset := None; onMouseEnter := None; onMouseLeave := None;
                  onOpenCallback := Some "opened"%string;
                  onCloseCallback := Some "closed"%string;
                  applyDefaultClassNames := None; disableFlip := None;
                  element := "X"; openDelay := None; closeDelay := Some 100;
                  enterable := None |}
               eq_refl eq_refl).
    reflexivity.
  - exact (proj2 (proj2 (trigger_leave_hover topHoverProps flippedState
                           {| placement := BOTTOM; type := HOVER;
                              position := c_position
                                (calculatePosition topHoverProps None nearTopDom TOP) |}
                           I eq_refl eq_refl)) eq_refl).
Defined.

(** X10. On an enterable hover overlay, a pointer entering the overlay
    cancels whatever timer is pending, so that no timer can fire, and invokes
    the entry's [onMouseEnter]; a pointer leaving it schedules the close and
    invokes the entry's [onMouseLeave]. *)
Theorem overlay_pointer_enterable (props : Props) (s : State) (ap : ActivePopup)
    (cfg : PopupMetadata) :
  timer_inv s ->
  rendered s = Some ap ->
  type ap = HOVER ->
  lookupPopup (config props) (placement ap) HOVER = Some cfg ->
  truthy (enterable cfg) = true ->
  let entered := popup_onMouseEnter props s in
  let left := popup_onMouseLeave props s in
  (timers entered = [] /\
   (forall id, fireTimer id entered = entered) /\
   calls entered = calls s ++ optList (onMouseEnter cfg) /\
   rendered entered = Some ap) /\
  (timers left =
     [{| timer_id := nextTimerId s; timer_delay := or_zero (closeDelay cfg);
         timer_callback := CloseTimer cfg |}] /\
   calls left = calls s ++ optList (onMouseLeave cfg) /\
   rendered left = Some ap).
Proof.
  intros Hinv Hr Hty Hl He entered left.
  assert (Hap : isOpen s = true /\ activePopup s = Some ap).
  { unfold rendered in Hr. destruct (isOpen s); [now split | discriminate]. }
  destruct Hap as [Hopen Hap].
  assert (Hl' : lookupPopup (config props) (placement ap) (type ap) = Some cfg)
    by now rewrite Hty.
  split.
  - assert (Hen : entered = invoke (onMouseEnter cfg) (clearPending s)).
    { unfold entered, popup_onMouseEnter. rewrite Hr, Hty, Hl. simpl. now rewrite He. }
    destruct (clearPending_frame s) as (F1 & F2 & _ & _ & F5 & _).
    assert (Ht : timers entered = []).
    { rewrite Hen. destruct (onMouseEnter cfg); simpl; now apply clearPending_nil. }
    split; [exact Ht | ]. split; [ | split].
    + intros id. apply fireTimer_not_pending. rewrite Ht. constructor.
    + rewrite Hen, invoke_calls. now rewrite F5.
    + rewrite Hen. unfold rendered.
      destruct (onMouseEnter cfg); simpl; now rewrite F1, F2, Hopen.
  - assert (Hle : left = invoke (onMouseLeave cfg) (handleClose props s)).
    { unfold left, popup_onMouseLeave. rewrite Hr, Hty, Hl. simpl. now rewrite He. }
    destruct (handleClose_view props s) as (V1 & V2 & _ & V4 & _).
    split; [ | split].
    + rewrite Hle.
      assert (E : timers (invoke (onMouseLeave cfg) (handleClose props s)) =
                  timers (handleClose props s))
        by now destruct (onMouseLeave cfg).
      rewrite E, (handleClose_entry props ap cfg s Hap Hl').
      rewrite (rearm_timers _ _ s Hinv). now rewrite Hty.
    + rewrite Hle, invoke_calls. now rewrite V4.
    + rewrite Hle. unfold rendered.
      destruct (onMouseLeave cfg); simpl; now rewrite V1, V2, Hopen.
Qed.

Lemma overlay_pointer_enterable_witness :
  calls (popup_onMouseEnter enterableProps openEnterableState) = ["entered"%string] /\
  calls (popup_onMouseLeave enterableProps openEnterableState) = ["left"%string].
Proof.
  destruct (overlay_pointer_enterable enterableProps openEnterableState
              {| placement := RIGHT; type := HOVER;
                 position := c_position
                   (calculatePosition enterableProps None midDom RIGHT) |}
              enterableEntry I eq_refl eq_refl eq_refl eq_refl)
    as ((_ & _ & He & _) & (_ & Hl & _)).
  split; [exact He | exact Hl].
Defined.

(** X11. A mousedown in the document, with a click overlay active and the
    overlay and the trigger mounted: outside both, it schedules the close
    without delay if the active placement has a click entry, and does nothing
    if it has none (as after a flip to a side that is not configured); inside
    the overlay or on the trigger it does nothing.  Whenever a mousedown
    changes anything, a click overlay is active, its placement has a click
    entry, both elements are mounted and the target is outside. *)
Theorem click_outside_closes (props : Props) (s : State) (ap : ActivePopup)
    (popup trig : DOMRect) :
  timer_inv s ->
  activePopup s = Some ap ->
  type ap = CLICK ->
  popupRect (dom s) = Some popup ->
  triggerRect (dom s) = Some trig ->
  (forall cfg,
     lookupPopup (config props) (placement ap) CLICK = Some cfg ->
     timers (handleClickOutside props Outside s) =
       [{| timer_id := nextTimerId s; timer_delay := 0;
           timer_callback := CloseTimer cfg |}]) /\
  (lookupPopup (config props) (placement ap) CLICK = None ->
   handleClickOutside props Outside s = s) /\
  handleClickOutside props InPopup s = s /\
  handleClickOutside props InTrigger s = s /\
  forall s0 target,
    handleClickOutside props target s0 <> s0 ->
    exists ap0 cfg0,
      activePopup s0 = Some ap0 /\ type ap0 = CLICK /\ target = Outside /\
      lookupPopup (config props) (placement ap0) CLICK = Some cfg0 /\
      popupRect (dom s0) <> None /\ triggerRect (dom s0) <> None.
Proof.
  intros Hinv Hap Hty Hp Ht.
  split; [ | split; [ | split; [ | split]]].
  - intros cfg Hl.
    assert (Hl' : lookupPopup (config props) (placement ap) (type ap) = Some cfg)
      by now rewrite Hty.
    unfold handleClickOutside. rewrite Hap, Hty, Hp, Ht. simpl.
    rewrite (handleClose_entry props ap cfg s Hap Hl'), (rearm_timers _ _ s Hinv).
    now rewrite Hty.
  - intros Hl. unfold handleClickOutside. rewrite Hap, Hty, Hp, Ht. simpl.
    apply (handleClose_no_entry props s ap Hap). now rewrite Hty.
  - unfold handleClickOutside. now rewrite Hap, Hty.
  - unfold handleClickOutside. now rewrite Hap, Hty.
  - intros s0 target Hne. unfold handleClickOutside in Hne.
    destruct (activePopup s0) as [ap0|] eqn:Hap0; [ | congruence].
    destruct (type ap0) eqn:Hty0, target; try congruence.
    destruct (popupRect (dom s0)), (triggerRect (dom s0)); simpl in Hne;
      try congruence.
    destruct (lookupPopup (config props) (placement ap0) CLICK) as [cfg0|] eqn:Hl0.
    + exists ap0, cfg0. repeat split; try assumption; discriminate.
    + exfalso. apply Hne. apply (handleClose_no_entry props s0 ap0 Hap0).
      now rewrite Hty0.
Qed.

Lemma click_outside_closes_witness :
  map timer_delay
    (timers (handleClickOutside rightClickProps Outside
               (run rightClickProps [EvTriggerClick; EvFire 1; EvLayout midDomMounted 0]
                  (mount midDom)))) = [0].
Proof.
  rewrite (proj1 (click_outside_closes rightClickProps
                    (run rightClickProps
                       [EvTriggerClick; EvFire 1; EvLayout midDomMounted 0] (mount midDom))
                    {| placement := RIGHT; type := CLICK;
                       position := c_position
                         (calculatePosition rightClickProps None midDom RIGHT) |}
                    (rectOf 100 100 100 30) (rectOf 100 100 100 30)
                    I eq_refl eq_refl eq_refl eq_refl) (plainEntry "Y") eq_refl).
  reflexivity.
Defined.

(** X12. The focus trap of an open click overlay: with focus on one of the
    overlay's focusable descendants, Tab on the last one moves focus to the
    first and Shift+Tab on the first moves it to the last; in every other
    case the handler leaves focus where it is.  Focus never leaves the
    overlay's focusable descendants through the handler, and visibility and
    timers are untouched. *)
Theorem focus_trap (props : Props) (s : State) (ap : ActivePopup) (popup : DOMRect)
    (i : nat) (shiftKey : bool) :
  isOpen s = true ->
  activePopup s = Some ap ->
  type ap = CLICK ->
  popupRect (dom s) = Some popup ->
  activeElement s = FocusInPopup i ->
  (i < focusableCount s)%nat ->
  let s' := handleKeyDown props (KeyTab shiftKey) s in
  let last := (focusableCount s - 1)%nat in
  activeElement s' =
    FocusInPopup
      (if shiftKey then if Nat.eqb i 0 then last else i
       else if Nat.eqb i last then 0%nat else i) /\
  (exists j, activeElement s' = FocusInPopup j /\ (j < focusableCount s)%nat) /\
  s' = with_focus (activeElement s') s.
Proof.
  intros Hopen Hap Hty Hp Hfocus Hi s' last.
  assert (Hs' : s' =
            if shiftKey && Nat.eqb i 0 then with_focus (FocusInPopup last) s
            else if negb shiftKey && Nat.eqb i last then with_focus (FocusInPopup 0) s
            else s).
  { unfold s', handleKeyDown. rewrite Hopen, Hap, Hty, Hp, Hfocus. simpl.
    destruct (focusableCount s) as [|n] eqn:En; [lia | ].
    unfold last. simpl. now rewrite Nat.sub_0_r. }
  assert (Hself : s = with_focus (activeElement s) s) by now destruct s.
  destruct shiftKey; simpl in Hs'.
  - destruct (Nat.eqb i 0) eqn:E; rewrite Hs'; simpl.
    + split; [reflexivity | ]. split; [ | reflexivity].
      exists last. split; [reflexivity | unfold last; lia].
    + rewrite Hfocus. split; [reflexivity | ]. split; [ | now rewrite <- Hfocus].
      exists i. now split.
  - destruct (Nat.eqb i last) eqn:E; rewrite Hs'; simpl.
    + split; [reflexivity | ]. split; [ | reflexivity].
      exists 0%nat. split; [reflexivity | lia].
    + rewrite Hfocus. split; [reflexivity | ]. split; [ | now rewrite <- Hfocus].
      exists i. now split.
Qed.

Lemma focus_trap_witness :
  activeElement (handleKeyDown rightClickProps (KeyTab false) trapState) =
    FocusInPopup 0.
Proof.
  exact (proj1 (focus_trap rightClickProps trapState
                  {| placement := RIGHT; type := CLICK;
                     position := c_position
                       (calculatePosition rightClickProps None midDom RIGHT) |}
                  (rectOf 100 100 100 30) 2 false
                  eq_refl eq_refl eq_refl eq_refl eq_refl ltac:(simpl; lia))).
Defined.

Lemma step_without_entry (props : Props) (s : State) (ap : ActivePopup) (e : Event) :
  lookupPopup (config props) (placement ap) (type ap) = None ->
  opens e = false ->
  isOpen s = true /\ activePopup s = Some ap /\ timers s = [] ->
  isOpen (step props s e) = true /\ activePopup (step props s e) = Some ap /\
  timers (step props s e) = [].
Proof.
  intros Hl He (Hopen & Hap & Ht).
  assert (J : isOpen s = true /\ activePopup s = Some ap /\ timers s = [])
    by now repeat split.
  destruct e; simpl in *; try discriminate.
  - now rewrite (handleClose_no_entry props s ap Hap Hl).
  - unfold fireTimer. now rewrite Ht.
  - now destruct key.
  - unfold trigger_onMouseLeave.
    set (s1 := invoke (tcallback props tc_onMouseLeave) s).
    assert (J1 : isOpen s1 = true /\ activePopup s1 = Some ap /\ timers s1 = [])
      by (unfold s1; now destruct (tcallback props _)).
    assert (Hap1 : activePopup s1 = Some ap) by apply J1.
    rewrite Hap1. destruct (type ap) eqn:Ety; [ | exact J1].
    destruct (negb _); [ | exact J1].
    rewrite (handleClose_no_entry props s1 ap Hap1); [exact J1 | now rewrite Ety].
  - unfold popup_onMouseEnter, rendered. rewrite Hopen, Hap, Hl. simpl.
    now destruct (type ap).
  - unfold popup_onMouseLeave, rendered. rewrite Hopen, Hap, Hl. simpl.
    now destruct (type ap).
  - unfold handleClickOutside. rewrite Hap.
    destruct (type ap) eqn:Ety, target; try exact J.
    destruct (_ && _); [ | exact J].
    rewrite (handleClose_no_entry props s ap Hap); [exact J | now rewrite Ety].
  - unfold handleKeyDown. rewrite Hopen. simpl.
    destruct key; try exact J.
    + rewrite (handleClose_no_entry props s ap Hap Hl). unfold focusTrigger.
      now destruct (triggerRect (dom s)).
    + rewrite Hap.
      destruct (type ap), (popupRect (dom s)), (focusableCount s); try exact J.
      destruct (_ && _); [exact J | ]. now destruct (_ && _).
  - unfold clearPending. destruct (timeoutRef s); simpl; now rewrite ?Ht.
  - exact J.
Qed.

(** * The resize effect and the invariants of a session *)

Lemma handleResize_st (props : Props) (v : ResizeState) :
  st (handleResize props v) = st v.
Proof.
  unfold handleResize.
  destruct (rendered (st v)) as [ap|]; [ | reflexivity].
  destruct (popupRect (dom (st v))); [ | reflexivity].
  destruct (c_position _) as [pos|]; [ | reflexivity].
  destruct (c_placement _) as [rp|]; [ | reflexivity].
  destruct (positionChanged (positionRef v) pos); simpl;
    destruct (_ && _); reflexivity.
Qed.

Lemma step_visibility_sync (props : Props) (s : State) (e : Event) :
  visibility_sync s -> visibility_sync (step props s e).
Proof.
  intros H.
  assert (Hkeep : same_visibility s (step props s e) -> visibility_sync (step props s e)).
  { intros [E1 E2]. unfold visibility_sync. now rewrite E1, E2. }
  destruct e; try (apply Hkeep, step_same_visibility; intros; discriminate).
  simpl. unfold fireTimer. destruct (find _ (timers s)) as [t|]; [ | exact H].
  unfold visibility_sync. destruct (timer_callback t) as [P ty pos cfg | cfg].
  - destruct (runTimer_open P ty pos cfg (clearTimeout id s)) as (-> & -> & _).
    split; [discriminate | reflexivity].
  - destruct (runTimer_close cfg (clearTimeout id s)) as (-> & -> & _).
    split; [discriminate | congruence].
Qed.

Lemma runFrame_sync (v : ResizeState) :
  visibility_sync (st v) -> visibility_sync (st (runFrame v)).
Proof.
  unfold runFrame. destruct (frames v) as [|p rest]; [trivial | ].
  unfold visibility_sync. simpl. destruct (activePopup (st v)); intros H; exact H || idtac.
  destruct H as [H1 H2]. split; intros; [discriminate | now apply H2].
Qed.

Lemma runFrame_timer_inv (v : ResizeState) :
  timer_inv (st v) -> timer_inv (st (runFrame v)).
Proof. unfold runFrame. destruct (frames v); trivial. Qed.

Lemma rendered_sync (s : State) :
  visibility_sync s -> (rendered s <> None <-> isOpen s = true).
Proof.
  unfold visibility_sync, rendered. intros H.
  destruct (isOpen s); split; intros H1; try congruence; now apply H.
Qed.

(** X14. In every session, with resizes and animation frames included,
    [isOpen] holds exactly when [activePopup] is set and at most one timer is
    pending.  Hence the trigger's [aria-describedby] names the overlay's id
    exactly when the overlay is rendered, and [aria-expanded] is true exactly
    then. *)
Theorem session_invariants (props : Props) (d : Dom) (es : list ResizeEvent)
    (tooltipId : string) :
  let s := st (rrun props es (mountResize d)) in
  visibility_sync s /\
  (List.length (timers s) <= 1)%nat /\
  aria_describedby (renderTrigger tooltipId s) = overlayId tooltipId s /\
  (aria_expanded (renderTrigger tooltipId s) = true <-> renderOverlay props s <> None).
Proof.
  intros s.
  assert (H : visibility_sync s /\ timer_inv s).
  { unfold s, rrun.
    assert (H0 : visibility_sync (st (mountResize d)) /\ timer_inv (st (mountResize d))).
    { split; [ | exact I]. unfold visibility_sync. simpl. split; congruence. }
    revert H0. generalize (mountResize d).
    induction es as [|e es IH]; intros v [Hs Hi]; simpl; [now split | ].
    apply IH. destruct e; simpl.
    - split; [now apply step_visibility_sync | ].
      apply (P_step props timer_inv); auto using timer_inv_clearTimeout, timer_inv_rearm.
    - rewrite handleResize_st. now split.
    - split; [now apply runFrame_sync | now apply runFrame_timer_inv]. }
  destruct H as [Hsync Hinv].
  split; [exact Hsync | ]. split; [now apply timer_inv_length | ].
  pose proof (rendered_sync s Hsync) as Hr.
  split.
  - unfold renderTrigger, overlayId. simpl.
    destruct (isOpen s) eqn:E.
    + destruct (rendered s); [reflexivity | ]. exfalso. now apply Hr.
    + destruct (rendered s); [ | reflexivity].
      assert (false = true) by (apply Hr; discriminate). discriminate.
  - unfold renderTrigger, renderOverlay. simpl. rewrite <- Hr.
    destruct (rendered s); split; congruence.
Qed.

Lemma positionChanged_same (pos : Position) : positionChanged (Some pos) pos = false.
Proof. unfold positionChanged. now rewrite !Qeq_bool_refl. Qed.

Lemma placementChanged_same (p : PopupPlacement) : placementChanged (Some p) p = false.
Proof. unfold placementChanged. now rewrite PopupPlacement_eqb_refl. Qed.

Lemma handleResize_active (props : Props) (v : ResizeState) (ap : ActivePopup)
    (pr : DOMRect) (pos : Position) (rp : PopupPlacement) :
  rendered (st v) = Some ap ->
  popupRect (dom (st v)) = Some pr ->
  calculatePosition props (memoActivePopup (st v)) (dom (st v)) (placement ap) =
    {| c_position := Some pos; c_placement := Some rp |} ->
  handleResize props v =
    applyResize
      (negb (entryDisableFlip (lookupPopup (config props) (placement ap) (type ap)))
       && negb (globalDisableFlip props))
      pos rp v.
Proof.
  intros Er Ep Ec. unfold handleResize, applyResize. rewrite Er, Ep, Ec. simpl.
  destruct (positionChanged (positionRef v) pos); reflexivity.
Qed.

Lemma handleResize_cases (props : Props) (v : ResizeState) :
  handleResize props v = v \/
  exists ap pr pos rp,
    rendered (st v) = Some ap /\ popupRect (dom (st v)) = Some pr /\
    calculatePosition props (memoActivePopup (st v)) (dom (st v)) (placement ap) =
      {| c_position := Some pos; c_placement := Some rp |}.
Proof.
  unfold handleResize.
  destruct (rendered (st v)) as [ap|] eqn:Er; [ | now left].
  destruct (popupRect (dom (st v))) as [pr|] eqn:Ep; [ | now left].
  destruct (calculatePosition _ _ _ _) as [[pos|] [rp|]] eqn:Ec; simpl;
    try now left.
  right. now exists ap, pr, pos, rp.
Qed.

Lemma applyResize_st (allowed : bool) (pos : Position) (p : PopupPlacement)
    (v : ResizeState) :
  st (applyResize allowed pos p v) = st v.
Proof.
  unfold applyResize.
  destruct (positionChanged (positionRef v) pos); simpl;
    destruct (allowed && _); reflexivity.
Qed.

Lemma applyResize_idempotent (allowed : bool) (pos : Position) (p : PopupPlacement)
    (v : ResizeState) :
  applyResize allowed pos p (applyResize allowed pos p v) = applyResize allowed pos p v.
Proof.
  unfold applyResize at 2.
  destruct (positionChanged (positionRef v) pos) eqn:Ec;
    cbn [positionRef placementRef inlineStyle frames st];
    destruct allowed; cbn [andb];
    try (destruct (placementChanged (placementRef v) p) eqn:Epc);
    unfold applyResize; cbn [positionRef placementRef inlineStyle frames st andb];
    rewrite ?positionChanged_same, ?Ec; cbn [positionRef placementRef andb];
    rewrite ?placementChanged_same, ?Epc; try reflexivity; now destruct v.
Qed.

(** X15. [handleResize] changes nothing of the component state (visibility,
    timers, focus, callbacks), does nothing at all while no overlay is
    rendered or mounted, and is idempotent: on an unchanged layout a second
    call writes no style and queues no frame. *)
Theorem handleResize_idempotent (props : Props) (v : ResizeState) :
  st (handleResize props v) = st v /\
  (rendered (st v) = None \/ popupRect (dom (st v)) = None ->
   handleResize props v = v) /\
  handleResize props (handleResize props v) = handleResize props v.
Proof.
  split; [apply handleResize_st | ]. split.
  - unfold handleResize. intros [-> | ->]; [reflexivity | ].
    now destruct (rendered (st v)).
  - destruct (handleResize_cases props v) as [E | (ap & pr & pos & rp & Er & Ep & Ec)].
    + now rewrite !E.
    + rewrite (handleResize_active props v ap pr pos rp Er Ep Ec).
      set (allowed := negb _ && negb _).
      rewrite (handleResize_active props (applyResize allowed pos rp v) ap pr pos rp);
        rewrite ?applyResize_st; try assumption.
      apply applyResize_idempotent.
Qed.

Lemma handleResize_idempotent_witness :
  handleResize topHoverProps (mountResize midDom) = mountResize midDom.
Proof.
  apply (proj1 (proj2 (handleResize_idempotent topHoverProps (mountResize midDom)))).
  left. reflexivity.
Defined.

(** X16. While the entry of the active overlay, looked up by its own
    placement and mode, has [disableFlip], or the component has, a resize
    queues no placement update and leaves [placementRef] alone. *)
Theorem resize_respects_disableFlip (props : Props) (v : ResizeState)
    (ap : ActivePopup) :
  rendered (st v) = Some ap ->
  entryDisableFlip (lookupPopup (config props) (placement ap) (type ap)) = true \/
  globalDisableFlip props = true ->
  frames (handleResize props v) = frames v /\
  placementRef (handleResize props v) = placementRef v.
Proof.
  intros Er Hflag.
  destruct (handleResize_cases props v) as [E | (ap' & pr & pos & rp & Er' & Ep & Ec)].
  - now rewrite E.
  - assert (ap' = ap) by congruence. subst ap'.
    rewrite (handleResize_active props v ap pr pos rp Er Ep Ec).
    assert (Ha : negb (entryDisableFlip
                         (lookupPopup (config props) (placement ap) (type ap)))
                 && negb (globalDisableFlip props) = false).
    { destruct Hflag as [-> | ->]; [reflexivity | apply andb_false_r]. }
    rewrite Ha. unfold applyResize. simpl.
    destruct (positionChanged (positionRef v) pos); split; reflexivity.
Qed.

Lemma resize_respects_disableFlip_witness :
  frames (handleResize hoverNoFlipProps (hoverOpenMounted hoverNoFlipProps)) = [].
Proof.
  apply (proj1 (resize_respects_disableFlip hoverNoFlipProps
                  (hoverOpenMounted hoverNoFlipProps)
                  {| placement := TOP; type := HOVER;
                     position := c_position
                       (calculatePosition hoverNoFlipProps None midDom TOP) |}
                  eq_refl (or_introl eq_refl))).
Defined.

(** X17. With the overlay rendered and mounted and the trigger mounted, a
    resize leaves [positionRef] at the position computed for the active
    placement in the current layout, and the inline style follows
    [positionRef] if it did before. *)
Theorem resize_tracks_position (props : Props) (v : ResizeState) (ap : ActivePopup)
    (pr trig : DOMRect) :
  rendered (st v) = Some ap ->
  popupRect (dom (st v)) = Some pr ->
  triggerRect (dom (st v)) = Some trig ->
  exists pos r,
    c_position
      (calculatePosition props (memoActivePopup (st v)) (dom (st v)) (placement ap)) =
      Some pos /\
    positionRef (handleResize props v) = Some r /\
    samePosition r pos /\
    (inlineStyle v = positionRef v ->
     inlineStyle (handleResize props v) = positionRef (handleResize props v)).
Proof.
  intros Er Ep Et.
  destruct (calculatePosition_position props (memoActivePopup (st v)) (dom (st v))
              (placement ap) trig Et) as (rp & Hpl & Hpos).
  set (pos := positions trig (popupSize (dom (st v))) (defaultOffset props) rp) in *.
  assert (Ec : calculatePosition props (memoActivePopup (st v)) (dom (st v))
                 (placement ap) = {| c_position := Some pos; c_placement := Some rp |}).
  { destruct (calculatePosition _ _ _ _) as [cp cl]. simpl in *. congruence. }
  rewrite (handleResize_active props v ap pr pos rp Er Ep Ec).
  unfold applyResize.
  destruct (positionChanged (positionRef v) pos) eqn:Ech.
  - exists pos, pos. split; [exact Hpos | ].
    cbn [positionRef placementRef inlineStyle].
    destruct (_ && _); cbn [positionRef inlineStyle];
      (split; [reflexivity | ]); (split; [split; reflexivity | reflexivity]).
  - unfold positionChanged in Ech.
    destruct (positionRef v) as [r|] eqn:Eref; [ | discriminate].
    apply orb_false_elim in Ech. destruct Ech as [E1 E2].
    apply negb_false_iff, Qeq_bool_iff in E1.
    apply negb_false_iff, Qeq_bool_iff in E2.
    exists pos, r. split; [exact Hpos | ].
    destruct (_ && _); cbn [positionRef inlineStyle]; rewrite ?Eref;
      (split; [reflexivity | ]); (split; [now split | trivial]).
Qed.

Lemma resize_tracks_position_witness :
  exists r,
    positionRef (handleResize topHoverProps (hoverOpenMounted topHoverProps)) = Some r /\
    top r == 100 - 30 - 8.
Proof.
  destruct (resize_tracks_position topHoverProps (hoverOpenMounted topHoverProps)
              {| placement := TOP; type := HOVER;
                 position := c_position
                   (calculatePosition topHoverProps None midDom TOP) |}
              (rectOf 100 100 100 30) (rectOf 100 100 100 30)
              eq_refl eq_refl eq_refl) as (pos & r & Hpos & Hr & [Htop _] & _).
  exists r. split; [exact Hr | ].
  rewrite Htop. vm_compute in Hpos. injection Hpos as <-. reflexivity.
Defined.

(** X18. When neither flag forbids it and [placementRef] does not already
    hold the placement computed for the current layout, a resize queues that
    placement, and the next animation frame stores it in [activePopup], so
    that [data-placement] shows it, keeping the overlay's mode, its stored
    position and [isOpen].  The re-render this causes cleans up the resize
    effect, which cancels the pending timer: afterwards no timer can fire.
    It also moves focus to a click overlay. *)
Theorem resize_commits_placement (props : Props) (v : ResizeState) (ap : ActivePopup)
    (pr trig : DOMRect) (rp : PopupPlacement) :
  timer_inv (st v) ->
  rendered (st v) = Some ap ->
  popupRect (dom (st v)) = Some pr ->
  triggerRect (dom (st v)) = Some trig ->
  entryDisableFlip (lookupPopup (config props) (placement ap) (type ap)) = false ->
  globalDisableFlip props = false ->
  c_placement
    (calculatePosition props (memoActivePopup (st v)) (dom (st v)) (placement ap)) =
    Some rp ->
  placementRef v <> Some rp ->
  frames v = [] ->
  let v' := frameAndRender props (handleResize props v) in
  activePopup (st v') =
    Some {| placement := rp; type := type ap; position := position ap |} /\
  isOpen (st v') = true /\
  timers (st v') = [] /\
  (forall id, fireTimer id (st v') = st v') /\
  activeElement (st v') =
    match type ap with
    | CLICK => FocusPopup
    | HOVER => activeElement (st v)
    end /\
  option_map data_placement (renderOverlay props (st v')) = Some (placementValue rp).
Proof.
  intros Hinv Er Ep Et He Hg Hpl Href Hfr v'.
  destruct (calculatePosition_position props (memoActivePopup (st v)) (dom (st v))
              (placement ap) trig Et) as (rp' & Hpl' & Hpos).
  assert (rp' = rp) by congruence. subst rp'.
  set (pos := positions trig (popupSize (dom (st v))) (defaultOffset props) rp) in *.
  assert (Ec : calculatePosition props (memoActivePopup (st v)) (dom (st v))
                 (placement ap) = {| c_position := Some pos; c_placement := Some rp |}).
  { destruct (calculatePosition _ _ _ _) as [cp cl]. simpl in *. congruence. }
  assert (Hch : forall ref, ref = placementRef v -> placementChanged ref rp = true).
  { intros ref ->. unfold placementChanged.
    destruct (placementRef v) as [q|]; [ | reflexivity].
    destruct (PopupPlacement_eqb q rp) eqn:E; [ | reflexivity].
    apply PopupPlacement_eqb_eq in E. subst q. now contradiction Href. }
  assert (Hap : isOpen (st v) = true /\ activePopup (st v) = Some ap).
  { unfold rendered in Er. destruct (isOpen (st v)); [now split | discriminate]. }
  destruct Hap as [Hopen Hap].
  set (w := handleResize props v).
  assert (Hw : st w = st v /\ frames w = [rp]).
  { unfold w. rewrite (handleResize_active props v ap pr pos rp Er Ep Ec), He, Hg.
    unfold applyResize. cbn [negb andb].
    destruct (positionChanged (positionRef v) pos);
      cbn [positionRef placementRef inlineStyle frames st];
      rewrite (Hch _ eq_refl), Hfr; split; reflexivity. }
  destruct Hw as [Hst Hfw].
  set (s1 := clearPending (commitPlacement rp (st v))).
  assert (Hs1 : isOpen s1 = true /\
                activePopup s1 =
                  Some {| placement := rp; type := type ap; position := position ap |} /\
                timers s1 = [] /\ dom s1 = dom (st v) /\
                activeElement s1 = activeElement (st v)).
  { unfold s1.
    destruct (clearPending_frame (commitPlacement rp (st v)))
      as (F1 & F2 & _ & F4 & _ & F6 & _).
    rewrite F1, F2, F4, F6. unfold commitPlacement. simpl. rewrite Hap, Hopen.
    repeat split. apply clearPending_nil. exact Hinv. }
  destruct Hs1 as (S1 & S2 & S3 & S4 & S5).
  assert (Hv' : st v' =
            match type ap with CLICK => with_focus FocusPopup s1 | HOVER => s1 end).
  { unfold v', frameAndRender. fold w. rewrite Hfw, Hst, Hap.
    rewrite handleResize_st. cbn [st]. unfold runFrame. rewrite Hfw, Hst. cbn [st].
    fold s1. unfold rendered. rewrite S1, S2, S4, Ep. reflexivity. }
  rewrite Hv'. unfold renderOverlay, rendered.
  destruct (type ap); simpl; rewrite ?S1, ?S2, ?S3, ?S5; simpl;
    (repeat split; try reflexivity);
    intros id; apply fireTimer_not_pending; simpl; rewrite S3; constructor.
Qed.

Lemma resize_commits_placement_witness :
  timers
    (st (frameAndRender topHoverProps
           (handleResize topHoverProps (hoverOpenMounted topHoverProps)))) = [].
Proof.
  apply (proj1 (proj2 (proj2 (resize_commits_placement topHoverProps
                  (hoverOpenMounted topHoverProps)
                  {| placement := TOP; type := HOVER;
                     position := c_position
                       (calculatePosition topHoverProps None midDom TOP) |}
                  (rectOf 100 100 100 30) (rectOf 100 100 100 30) TOP
                  I eq_refl eq_refl eq_refl eq_refl eq_refl eq_refl
                  ltac:(discriminate) eq_refl)))).
Defined.

Lemma step_keeps_dom (props : Props) (s : State) (e : Event) :
  (forall d n, e <> EvLayout d n) ->
  dom (step props s e) = dom s /\
  memoActivePopup (step props s e) = memoActivePopup s.
Proof.
  intros Hne.
  assert (Hview : forall a b, same_view a b ->
                    dom b = dom a /\ memoActivePopup b = memoActivePopup a)
    by (intros a b (_ & _ & _ & _ & H1 & H2); now split).
  assert (Hinv : forall cb a, dom (invoke cb a) = dom a /\
                              memoActivePopup (invoke cb a) = memoActivePopup a)
    by (intros cb a; destruct cb; split; reflexivity).
  assert (Hclr : forall a, dom (clearPending a) = dom a /\
                           memoActivePopup (clearPending a) = memoActivePopup a)
    by (intros a; destruct (clearPending_frame a) as (_ & _ & _ & _ & _ & H1 & H2 & _);
        now split).
  assert (Htr : forall a b c : State,
             dom b = dom a /\ memoActivePopup b = memoActivePopup a ->
             dom c = dom b /\ memoActivePopup c = memoActivePopup b ->
             dom c = dom a /\ memoActivePopup c = memoActivePopup a)
    by (intros a b c [A1 A2] [B1 B2]; split; congruence).
  destruct e; simpl.
  - apply Hview, handleOpen_view.
  - apply Hview, handleClose_view.
  - unfold fireTimer. destruct (find _ (timers s)) as [t|]; [ | now split].
    destruct (timer_callback t) as [P ty pos cfg | cfg].
    + destruct (runTimer_open P ty pos cfg (clearTimeout id s))
        as (_ & _ & _ & _ & _ & _ & _ & H1 & H2). now split.
    + destruct (runTimer_close cfg (clearTimeout id s))
        as (_ & _ & _ & _ & _ & _ & _ & H1 & H2). now split.
  - eapply Htr; [apply Hinv | ]. apply Hview, (openEntries_view props (config props)).
  - destruct key; simpl; try (now split);
      (eapply Htr; [apply Hinv | ]; apply Hview, (openEntries_view props (config props))).
  - unfold trigger_onMouseEnter. destruct (find _ (config props)).
    + eapply Htr; [apply Hinv | ]. apply Hview, handleOpen_view.
    + apply Hinv.
  - unfold trigger_onMouseLeave.
    pose proof (Hinv (tcallback props tc_onMouseLeave) s) as Hi.
    destruct (activePopup (invoke _ s)) as [ap|]; [ | exact Hi].
    destruct (type ap); [ | exact Hi].
    destruct (negb _); [ | exact Hi].
    eapply Htr; [exact Hi | ]. apply Hview, handleClose_view.
  - unfold popup_onMouseEnter.
    destruct (rendered s) as [ap|]; [ | now split].
    destruct (type ap); [ | now split].
    destruct (enterableOf _); [ | now split].
    eapply Htr; [apply Hclr | apply Hinv].
  - unfold popup_onMouseLeave.
    destruct (rendered s) as [ap|]; [ | now split].
    destruct (type ap); [ | now split].
    destruct (enterableOf _); [ | now split].
    eapply Htr; [ | apply Hinv]. apply Hview, handleClose_view.
  - unfold handleClickOutside.
    destruct (activePopup s) as [ap|]; [ | now split].
    destruct (type ap), target; try (now split).
    destruct (_ && _); [ | now split].
    apply Hview, handleClose_view.
  - unfold handleKeyDown.
    destruct (negb (isOpen s)); [now split | ].
    destruct key; try (now split).
    + unfold focusTrigger.
      pose proof (Hview _ _ (handleClose_view props s)) as Hc.
      destruct (triggerRect _); exact Hc.
    + destruct (activePopup s) as [ap|]; [ | now split].
      destruct (type ap), (popupRect (dom s)), (focusableCount s); try (now split).
      destruct (_ && _); [now split | ].
      destruct (_ && _); now split.
  - apply Hclr.
  - now contradiction (Hne d focusables).
Qed.

Lemma handleResize_frames (props : Props) (v : ResizeState) :
  frames (handleResize props v) = frames v \/
  exists ap rp,
    rendered (st v) = Some ap /\
    c_placement
      (calculatePosition props (memoActivePopup (st v)) (dom (st v)) (placement ap)) =
      Some rp /\
    frames (handleResize props v) = frames v ++ [rp].
Proof.
  destruct (handleResize_cases props v) as [E | (ap & pr & pos & rp & Er & Ep & Ec)].
  - left. now rewrite E.
  - rewrite (handleResize_active props v ap pr pos rp Er Ep Ec).
    unfold applyResize.
    destruct (positionChanged (positionRef v) pos);
      cbn [positionRef placementRef inlineStyle frames st];
      destruct (_ && _); cbn [frames]; try (now left);
      right; exists ap, rp; rewrite Ec; repeat split; assumption || reflexivity.
Qed.

Lemma commitPlacement_same (s : State) (ap : ActivePopup) :
  activePopup s = Some ap ->
  isOpen (commitPlacement (placement ap) s) = isOpen s /\
  activePopup (commitPlacement (placement ap) s) = Some ap /\
  timers (commitPlacement (placement ap) s) = timers s /\
  dom (commitPlacement (placement ap) s) = dom s /\
  memoActivePopup (commitPlacement (placement ap) s) = memoActivePopup s.
Proof.
  intros Hap. unfold commitPlacement. simpl. rewrite Hap.
  repeat split. now destruct ap.
Qed.

(** X13. Suppose the active overlay's placement and mode have no entry in
    the configuration, as after a flip to a side that is not configured, no
    timer is pending, and in the current layout the active placement resolves
    to itself.  Then, as long as the layout stays the same and [handleOpen]
    is not called, nothing closes the overlay: close intents, pointer and
    keyboard events, outside clicks, timer firings, effect cleanups, resizes
    and animation frames, with or without the re-render they cause, all
    leave [isOpen], [activePopup] and the timers as they are. *)
Theorem overlay_without_entry_stays (props : Props) (v : ResizeState)
    (ap : ActivePopup) (es : list SessionEvent) :
  isOpen (st v) = true ->
  activePopup (st v) = Some ap ->
  lookupPopup (config props) (placement ap) (type ap) = None ->
  timers (st v) = [] ->
  Forall (fun p => p = placement ap) (frames v) ->
  (forall rp,
     c_placement
       (calculatePosition props (memoActivePopup (st v)) (dom (st v)) (placement ap)) =
       Some rp ->
     rp = placement ap) ->
  Forall (fun e => sessionKeepsLayout e = true) es ->
  let v' := srun props es v in
  isOpen (st v') = true /\ activePopup (st v') = Some ap /\ timers (st v') = [].
Proof.
  intros Hopen Hap Hl Ht Hfr Hstable Hes. unfold srun.
  set (d := dom (st v)) in *. set (m := memoActivePopup (st v)) in *.
  assert (J : (isOpen (st v) = true /\ activePopup (st v) = Some ap /\
               timers (st v) = []) /\
              Forall (fun p => p = placement ap) (frames v) /\
              dom (st v) = d /\ memoActivePopup (st v) = m)
    by (repeat split; assumption || reflexivity).
  clearbody d m. clear Hopen Hap Ht Hfr.
  assert (Hresize : forall w : ResizeState,
             (isOpen (st w) = true /\ activePopup (st w) = Some ap /\
              timers (st w) = []) /\
             Forall (fun p => p = placement ap) (frames w) /\
             dom (st w) = d /\ memoActivePopup (st w) = m ->
             (isOpen (st (handleResize props w)) = true /\
              activePopup (st (handleResize props w)) = Some ap /\
              timers (st (handleResize props w)) = []) /\
             Forall (fun p => p = placement ap) (frames (handleResize props w)) /\
             dom (st (handleResize props w)) = d /\
             memoActivePopup (st (handleResize props w)) = m).
  { intros w (J1 & Jf & Jd & Jm).
    rewrite handleResize_st. split; [exact J1 | ]. split; [ | now split].
    destruct (handleResize_frames props w) as [-> | (ap' & rp & Er & Hrp & ->)];
      [exact Jf | ].
    apply Forall_app. split; [exact Jf | ]. constructor; [ | constructor].
    apply Hstable. rewrite <- Jd, <- Jm.
    assert (ap' = ap).
    { destruct J1 as (Jo & Ja & _). unfold rendered in Er. rewrite Jo in Er. congruence. }
    now subst ap'. }
  revert v J.
  induction Hes as [|e es He _ IH]; intros v J; simpl; [apply J | ].
  apply IH. destruct e as [[e | | ] | ]; simpl.
  - (* a component event *)
    destruct J as (J1 & Jf & Jd & Jm).
    assert (Ho : opens e = false /\ forall d0 n, e <> EvLayout d0 n).
    { simpl in He. destruct e; simpl in *; try (split; [reflexivity | discriminate]);
        try discriminate.
      destruct key; simpl in *; try discriminate; split; reflexivity || discriminate. }
    destruct Ho as [Ho Hnl].
    destruct (step_keeps_dom props (st v) e Hnl) as [D1 D2].
    split; [now apply step_without_entry | ].
    split; [exact Jf | ]. split; congruence.
  - (* a resize *)
    now apply Hresize.
  - (* an animation frame *)
    destruct J as (J1 & Jf & Jd & Jm).
    unfold runFrame. destruct (frames v) as [|p rest] eqn:Ef.
    + now rewrite Ef.
    + inversion Jf as [|? ? Hp Hrest]; subst. simpl.
      destruct J1 as (Jo & Ja & Jt).
      destruct (commitPlacement_same (st v) ap Ja) as (C1 & C2 & C3 & C4 & C5).
      repeat split; try assumption; congruence.
  - (* an animation frame with its re-render *)
    destruct J as ((Jo & Ja & Jt) & Jf & Jd & Jm).
    unfold frameAndRender. destruct (frames v) as [|p rest] eqn:Ef;
      [rewrite ?Ef; repeat split; assumption || constructor | ].
    rewrite Ja. apply Hresize. cbn [st frames].
    unfold runFrame. rewrite Ef. cbn [st frames positionRef placementRef inlineStyle].
    inversion Jf as [|? ? Hp Hrest]; subst p.
    destruct (commitPlacement_same (st v) ap Ja) as (C1 & C2 & C3 & C4 & C5).
    set (s0 := commitPlacement (placement ap) (st v)) in *.
    destruct (clearPending_frame s0) as (F1 & F2 & _ & _ & _ & F6 & F7 & _).
    assert (Ft : timers (clearPending s0) = []).
    { unfold clearPending. destruct (timeoutRef s0); simpl; rewrite ?C3, Jt; reflexivity. }
    set (s1 := clearPending s0) in *.
    assert (K : (isOpen s1 = true /\ activePopup s1 = Some ap /\ timers s1 = []) /\
                dom s1 = d /\ memoActivePopup s1 = m)
      by (repeat split; congruence).
    destruct K as ((K1 & K2 & K3) & K4 & K5).
    destruct (rendered s1) as [ap'|]; [ | now repeat split].
    destruct (popupRect (dom s1)); [ | now repeat split].
    destruct (type ap'); now repeat split.
Qed.

Lemma overlay_without_entry_stays_witness :
  isOpen
    (st (srun topHoverProps
           [SvEvent (EvComponent EvTriggerMouseLeave);
            SvEvent (EvComponent (EvKeyDown KeyEscape));
            SvEvent EvResize; SvFrameRender; SvEvent EvFrame;
            SvEvent (EvComponent EvClose);
            SvEvent (EvComponent (EvMouseDown Outside));
            SvEvent (EvComponent (EvFire 1))]
           flippedSession)) = true.
Proof.
  apply (proj1 (overlay_without_entry_stays topHoverProps flippedSession
                  {| placement := BOTTOM; type := HOVER;
                     position := c_position
                       (calculatePosition topHoverProps None nearTopDom TOP) |}
                  [SvEvent (EvComponent EvTriggerMouseLeave);
                   SvEvent (EvComponent (EvKeyDown KeyEscape));
                   SvEvent EvResize; SvFrameRender; SvEvent EvFrame;
                   SvEvent (EvComponent EvClose);
                   SvEvent (EvComponent (EvMouseDown Outside));
                   SvEvent (EvComponent (EvFire 1))]
                  eq_refl eq_refl eq_refl eq_refl
                  ltac:(vm_compute; constructor)
                  ltac:(intros rp H; vm_compute in H; now injection H as <-)
                  ltac:(repeat constructor))).
Defined.

(** * The theme provider *)

Import ThemeProvider.

Lemma validStored_themeValue (t : Theme) : validStored (Some (themeValue t)) = Some t.
Proof. now destruct t. Qed.

Lemma validStored_inv (stored : option string) (t : Theme) :
  validStored stored = Some t -> stored = Some (themeValue t).
Proof.
  destruct stored as [v|]; simpl; [ | discriminate].
  destruct (String.eqb v "dark") eqn:E1;
    [apply String.eqb_eq in E1; intros [= <-]; now subst | ].
  destruct (String.eqb v "light") eqn:E2;
    [apply String.eqb_eq in E2; intros [= <-]; now subst | ].
  destruct (String.eqb v "system") eqn:E3;
    [apply String.eqb_eq in E3; intros [= <-]; now subst | discriminate].
Qed.

(** X19. With a working [localStorage], the theme given to [setTheme] is the
    one a provider with the same storage key starts with afterwards, whatever
    its default; items under other keys are not touched. *)
Theorem theme_persists (env : Env) (props props' : ThemeProviderProps) (t : Theme)
    (p : Provider) :
  hasWindow env = true ->
  getThrows (storage p) = false ->
  setThrows (storage p) = false ->
  storageKey props' = storageKey props ->
  initialTheme env props' (storage (setTheme props t p)) = (t, []) /\
  forall k,
    k <> storageKey props ->
    items (storage (setTheme props t p)) k = items (storage p) k.
Proof.
  intros Hw Hg Hs Hk. unfold setTheme, setItem. rewrite Hs. simpl. split.
  - unfold initialTheme, getItem. rewrite Hw. simpl. rewrite Hg, Hk.
    rewrite String.eqb_refl. now rewrite validStored_themeValue.
  - intros k Hne. apply String.eqb_neq in Hne. now rewrite Hne.
Qed.

Lemma theme_persists_witness :
  initialTheme {| hasWindow := true; prefersDark := false |}
    (mkThemeProps (Some light) (Some "fluent-ai-theme"%string))
    (storage
       (setTheme (mkThemeProps None (Some "fluent-ai-theme"%string)) dark
          (mountProvider {| hasWindow := true; prefersDark := false |}
             (mkThemeProps None (Some "fluent-ai-theme"%string))
             {| items := fun _ => None; getThrows := false; setThrows := false |}
             []))) = (dark, []).
Proof.
  apply (proj1 (theme_persists {| hasWindow := true; prefersDark := false |}
                  (mkThemeProps None (Some "fluent-ai-theme"%string))
                  (mkThemeProps (Some light) (Some "fluent-ai-theme"%string)) dark
                  (mountProvider {| hasWindow := true; prefersDark := false |}
                     (mkThemeProps None (Some "fluent-ai-theme"%string))
                     {| items := fun _ => None; getThrows := false; setThrows := false |}
                     [])
                  eq_refl eq_refl eq_refl eq_refl)).
Defined.

(** X20. The initial theme is the stored value only if there is a window,
    reading does not throw and the stored string is exactly one of the three
    theme names; in every other case it is the default.  A warning is logged
    exactly when reading throws. *)
Theorem initialTheme_sound (env : Env) (props : ThemeProviderProps)
    (store : Storage) (t : Theme) (ws : list string) :
  initialTheme env props store = (t, ws) ->
  (t = defaultTheme props \/
   (hasWindow env = true /\ getThrows store = false /\
    items store (storageKey props) = Some (themeValue t))) /\
  (ws <> [] <-> hasWindow env = true /\ getThrows store = true).
Proof.
  unfold initialTheme, getItem.
  destruct (hasWindow env); simpl.
  - destruct (getThrows store); simpl.
    + intros [= <- <-]. split; [now left | ]. split; [now split | discriminate].
    + destruct (validStored _) as [t'|] eqn:Ev; intros [= <- <-].
      * apply validStored_inv in Ev. split; [now right | ].
        split; [congruence | intros [_ H]; discriminate].
      * split; [now left | ]. split; [congruence | intros [_ H]; discriminate].
  - intros [= <- <-]. split; [now left | ].
    split; [congruence | intros [H _]; discriminate].
Qed.

Lemma initialTheme_sound_witness :
  system = defaultTheme (mkThemeProps None None) \/
  (true = true /\ false = false /\
   (fun k : string => if String.eqb k "ui-theme" then Some "blue"%string else None)
     (storageKey (mkThemeProps None None)) = Some (themeValue system)).
Proof.
  apply (proj1 (initialTheme_sound {| hasWindow := true; prefersDark := true |}
                  (mkThemeProps None None)
                  {| items := fun k => if String.eqb k "ui-theme"
                                       then Some "blue"%string else None;
                     getThrows := false; setThrows := false |}
                  system [] eq_refl)).
Defined.

(** X21. [setTheme] always changes the theme in memory.  When writing to
    [localStorage] throws, the storage is left as it was and one warning is
    logged; otherwise nothing is logged. *)
Theorem setTheme_degrades (props : ThemeProviderProps) (t : Theme) (p : Provider) :
  theme (setTheme props t p) = t /\
  classList (setTheme props t p) = classList p /\
  (setThrows (storage p) = true ->
   storage (setTheme props t p) = storage p /\
   warnings (setTheme props t p) =
     warnings p ++ ["Failed to save theme to localStorage:"%string]) /\
  (setThrows (storage p) = false ->
   warnings (setTheme props t p) = warnings p /\
   items (storage (setTheme props t p)) (storageKey props) = Some (themeValue t)).
Proof.
  unfold setTheme, setItem.
  destruct (setThrows (storage p)); simpl; repeat split; try discriminate.
  now rewrite String.eqb_refl.
Qed.

Lemma In_addClass (c x : string) (classes : list string) :
  In x (addClass c classes) <-> x = c \/ In x classes.
Proof.
  unfold addClass. destruct (existsb (String.eqb c) classes) eqn:E.
  - split; [now right | ]. intros [-> | H]; [ | exact H].
    apply existsb_exists in E. destruct E as (y & Hy & Heq).
    apply String.eqb_eq in Heq. now subst.
  - rewrite in_app_iff. simpl. split.
    + intros [H | [<- | []]]; [now right | now left].
    + intros [-> | H]; [right; now left | now left].
Qed.

Lemma In_removeThemeClasses (x : string) (classes : list string) :
  In x (removeThemeClasses classes) <->
  In x classes /\ x <> "light"%string /\ x <> "dark"%string.
Proof.
  unfold removeThemeClasses. rewrite filter_In.
  rewrite negb_true_iff, orb_false_iff, !String.eqb_neq. tauto.
Qed.

Lemma onlyThemeClass_replace (c : string) (classes : list string) :
  c = "light"%string \/ c = "dark"%string ->
  onlyThemeClass c (addClass c (removeThemeClasses classes)).
Proof.
  intros Hc. split; [exact Hc | ].
  intros x Hx. rewrite In_addClass, In_removeThemeClasses.
  split; [intros [H | (_ & H1 & H2)]; [exact H | destruct Hx; contradiction]
         | now left].
Qed.

Lemma other_classes_replace (c x : string) (classes : list string) :
  c = "light"%string \/ c = "dark"%string ->
  x <> "light"%string -> x <> "dark"%string ->
  (In x (addClass c (removeThemeClasses classes)) <-> In x classes).
Proof.
  intros Hc H1 H2. rewrite In_addClass, In_removeThemeClasses.
  split; [intros [-> | (H & _)]; [destruct Hc; contradiction | exact H] | ].
  intros H. right. now repeat split.
Qed.

Lemma effective_is_theme_class (env : Env) (q : Provider) :
  let c :=
    themeValue (match theme q with system => getSystemTheme env | t => t end) in
  c = "light"%string \/ c = "dark"%string.
Proof.
  destruct (theme q); simpl; auto.
  unfold getSystemTheme. destruct (hasWindow env), (prefersDark env); simpl; auto.
Qed.

(** The four facts that hold of a mounted provider between events. *)
Lemma applyTheme_invariant (env : Env) (classes : list string) (q : Provider) :
  (forall x, x <> "light"%string -> x <> "dark"%string ->
             (In x (classList q) <-> In x classes)) ->
  let q' := applyTheme env q in
  (exists c, onlyThemeClass c (classList q')) /\
  (listening q' = true <-> theme q' = system) /\
  (forall x, x <> "light"%string -> x <> "dark"%string ->
             (In x (classList q') <-> In x classes)) /\
  (theme q' <> system -> onlyThemeClass (themeValue (theme q')) (classList q')).
Proof.
  intros Hoth. pose proof (effective_is_theme_class env q) as Hc.
  cbv zeta in Hc. unfold applyTheme. cbn [classList listening theme].
  set (c := themeValue _) in *.
  split; [exists c; now apply onlyThemeClass_replace | ].
  split; [destruct (theme q); split; congruence | ].
  split.
  - intros x H1 H2. rewrite (other_classes_replace c x _ Hc H1 H2). now apply Hoth.
  - intros Hns. unfold c. destruct (theme q); try congruence;
      apply onlyThemeClass_replace; auto.
Qed.

Lemma themeStep_invariant (env : Env) (props : ThemeProviderProps)
    (classes : list string) (p : Provider) (e : ThemeEvent) :
  (exists c, onlyThemeClass c (classList p)) /\
  (listening p = true <-> theme p = system) /\
  (forall x, x <> "light"%string -> x <> "dark"%string ->
             (In x (classList p) <-> In x classes)) /\
  (theme p <> system -> onlyThemeClass (themeValue (theme p)) (classList p)) ->
  let p' := themeStep env props p e in
  (exists c, onlyThemeClass c (classList p')) /\
  (listening p' = true <-> theme p' = system) /\
  (forall x, x <> "light"%string -> x <> "dark"%string ->
             (In x (classList p') <-> In x classes)) /\
  (theme p' <> system -> onlyThemeClass (themeValue (theme p')) (classList p')).
Proof.
  intros (Hone & Hlis & Hoth & Hexp) p'.
  assert (Hset : forall t, classList (setTheme props t p) = classList p /\
                           theme (setTheme props t p) = t /\
                           listening (setTheme props t p) = listening p).
  { intros t. unfold setTheme. destruct (setItem _ _ _); repeat split. }
  destruct e as [t | m]; unfold p'; simpl.
  - destruct (Hset t) as (Hc & Ht & Hl).
    assert (Hchanged : let q' := applyTheme env (setTheme props t p) in
              (exists c, onlyThemeClass c (classList q')) /\
              (listening q' = true <-> theme q' = system) /\
              (forall x, x <> "light"%string -> x <> "dark"%string ->
                         (In x (classList q') <-> In x classes)) /\
              (theme q' <> system ->
               onlyThemeClass (themeValue (theme q')) (classList q')))
      by (apply applyTheme_invariant; now rewrite Hc).
    assert (Hsame : theme p = t ->
              (exists c, onlyThemeClass c (classList (setTheme props t p))) /\
              (listening (setTheme props t p) = true <->
               theme (setTheme props t p) = system) /\
              (forall x, x <> "light"%string -> x <> "dark"%string ->
                         (In x (classList (setTheme props t p)) <-> In x classes)) /\
              (theme (setTheme props t p) <> system ->
               onlyThemeClass (themeValue (theme (setTheme props t p)))
                 (classList (setTheme props t p)))).
    { intros E. rewrite Hc, Ht, Hl, <- E.
      exact (conj Hone (conj Hlis (conj Hoth Hexp))). }
    unfold selectTheme.
    destruct (theme p) eqn:Etp, t; try exact Hchanged; now apply Hsame.
  - unfold mediaChange. destruct (listening p) eqn:El;
      [ | rewrite <- El in Hlis; exact (conj Hone (conj Hlis (conj Hoth Hexp)))].
    cbn [classList listening theme].
    assert (Hc : (if m then "dark" else "light")%string = "light"%string \/
                 (if m then "dark" else "light")%string = "dark"%string)
      by (destruct m; auto).
    split; [eexists; apply onlyThemeClass_replace; exact Hc | ].
    split; [exact Hlis | ]. split.
    + intros x H1 H2. rewrite (other_classes_replace _ x _ Hc H1 H2). now apply Hoth.
    + intros Hns. exfalso. apply Hns. now apply Hlis.
Qed.

Lemma theme_session_invariant (env : Env) (props : ThemeProviderProps)
    (store : Storage) (classes : list string) (es : list ThemeEvent) :
  let p := themeRun env props es (mountProvider env props store classes) in
  (exists c, onlyThemeClass c (classList p)) /\
  (listening p = true <-> theme p = system) /\
  (forall x, x <> "light"%string -> x <> "dark"%string ->
             (In x (classList p) <-> In x classes)) /\
  (theme p <> system -> onlyThemeClass (themeValue (theme p)) (classList p)).
Proof.
  unfold themeRun.
  assert (H0 : let p := mountProvider env props store classes in
               (exists c, onlyThemeClass c (classList p)) /\
               (listening p = true <-> theme p = system) /\
               (forall x, x <> "light"%string -> x <> "dark"%string ->
                          (In x (classList p) <-> In x classes)) /\
               (theme p <> system ->
                onlyThemeClass (themeValue (theme p)) (classList p))).
  { unfold mountProvider. apply applyTheme_invariant.
    unfold render. destruct (initialTheme env props store). reflexivity. }
  revert H0. generalize (mountProvider env props store classes).
  induction es as [|e es IH]; intros p H; simpl; [exact H | ].
  apply IH. now apply themeStep_invariant.
Qed.

(** X22. In every session of a mounted provider the root element carries
    exactly one of the classes light and dark, for an explicit theme the
    class of that theme; the other classes of the root element are never
    touched; and the system-preference listener is registered exactly while
    the theme is system. *)
Theorem theme_class_invariant (env : Env) (props : ThemeProviderProps)
    (store : Storage) (classes : list string) (es : list ThemeEvent) :
  let p := themeRun env props es (mountProvider env props store classes) in
  (exists c, onlyThemeClass c (classList p)) /\
  (listening p = true <-> theme p = system) /\
  (forall x, x <> "light"%string -> x <> "dark"%string ->
             (In x (classList p) <-> In x classes)) /\
  (theme p <> system -> onlyThemeClass (themeValue (theme p)) (classList p)).
Proof. apply theme_session_invariant. Qed.

(** X23. A mounted provider follows the system preference exactly while its
    theme is system: a change of the preference then sets the class of the
    new preference, and under an explicit theme it changes nothing. *)
Theorem theme_follows_system (env : Env) (props : ThemeProviderProps)
    (store : Storage) (classes : list string) (es : list ThemeEvent) (matches : bool) :
  let p := themeRun env props es (mountProvider env props store classes) in
  (theme p = system ->
   onlyThemeClass (if matches then "dark" else "light")
     (classList (mediaChange matches p))) /\
  (theme p <> system -> mediaChange matches p = p).
Proof.
  intros p.
  destruct (theme_session_invariant env props store classes es) as (_ & Hl & _).
  fold p in Hl. unfold mediaChange. split.
  - intros Hs. apply Hl in Hs. rewrite Hs. cbn [classList].
    apply onlyThemeClass_replace. destruct matches; auto.
  - intros Hns. destruct (listening p) eqn:E; [ | reflexivity].
    exfalso. apply Hns. now apply Hl.
Qed.
